(** * kubernetes_labels: the label-management resource of the Kubernetes provider

    A shallow embedding of the two revisions of
    [resource_kubernetes_labels.go] found in the repository:

    - variant A (server-side apply, with the managed-fields filter on read),
    - variant B (JSON patch computed by [diffStringMap], unfiltered read).

    Go maps are [gmap]s, the mutable [*schema.ResourceData] and the remote
    API server are threaded through a state monad, and every call to the
    dynamic client is recorded in a trace. *)

From Stdlib Require Import Ascii.
From stdpp Require Import base option gmap strings list fin_maps.

Local Open Scope string_scope.
Local Open Scope list_scope.

(** ** Errors, panics and results *)

(** A Go [error], identified with the text of [err.Error()]. *)
Definition Error := string.

(** How a Go call can end: it returns a value, it returns a non-nil
    [error], or the goroutine panics. *)
Inductive Result (A : Type) : Type :=
| Ok (a : A)
| Err (err : Error)
| Panic (reason : string).
Arguments Ok {A} a.
Arguments Err {A} err.
Arguments Panic {A} reason.

(** ** JSON documents *)

(** What [encoding/json] decodes into an [interface{}]. *)
#[local] Set Warnings "-register-all".
Inductive value : Type :=
| JNull
| JBool (b : bool)
| JNumber (lit : string)
| JString (s : string)
| JArray (l : list value)
| JObject (m : gmap string value).

(** A byte slice that is meant to hold JSON, abstracted to what the decoder
    makes of it: a syntax error, or the document it encodes. *)
Inductive bytes : Type :=
| Garbled (err : Error)
| Encoding (v : value).

Definition json_kind (v : value) : string :=
  match v with
  | JNull => "null"
  | JBool _ => "bool"
  | JNumber _ => "number"
  | JString _ => "string"
  | JArray _ => "array"
  | JObject _ => "object"
  end.

(** [json.Unmarshal(raw, &mm)] for [var mm map[string]interface{}]: a JSON
    object fills the map, JSON [null] leaves the nil map (which reads like
    the empty map), anything else is an error. *)
Definition json_Unmarshal (raw : bytes) : Error + gmap string value :=
  match raw with
  | Garbled err => inl err
  | Encoding (JObject mm) => inr mm
  | Encoding JNull => inr ∅
  | Encoding v =>
      inl ("json: cannot unmarshal " +:+ json_kind v +:+
           " into Go value of type map[string]interface {}")
  end.

(** ** Managed fields (variant A) *)

Record FieldsV1_t : Type := { Raw : bytes }.

(** [v1.ManagedFieldsEntry], restricted to the fields the code reads.
    [FieldsV1] is a pointer in the Go struct, hence the [option]. *)
Record ManagedFieldsEntry : Type := {
  Manager : string;
  FieldsV1 : option FieldsV1_t
}.

(** The loop of [getManagedLabels], with the local [labels] as accumulator.
    A nil map is represented by [∅]: the caller only reads from it. *)
Fixpoint getManagedLabels_from (labels : gmap string value)
    (managedFields : list ManagedFieldsEntry) (manager : string)
    : Result (gmap string value) :=
  match managedFields with
  | [] => Ok labels
  | m :: rest =>
      if bool_decide (Manager m ≠ manager)
      then getManagedLabels_from labels rest manager
      else
        match FieldsV1 m with
        | None => Panic "invalid memory address or nil pointer dereference"
        | Some f =>
            match json_Unmarshal (Raw f) with
            | inl err => Err err
            | inr mm =>
                match mm !! "f:metadata" with
                | Some (JObject metadata) =>
                    match metadata !! "f:labels" with
                    | Some (JObject l) => getManagedLabels_from l rest manager
                    | _ => getManagedLabels_from labels rest manager
                    end
                | _ => Panic "interface conversion: interface {} is not map[string]interface {}"
                end
            end
        end
  end.

Definition getManagedLabels (managedFields : list ManagedFieldsEntry)
    (manager : string) : Result (gmap string value) :=
  getManagedLabels_from ∅ managedFields manager.

(** ** The resource data handed over by the host framework *)

(** Modelled from the spec: [expandMetadata], defined elsewhere in the
    provider, turns the [metadata] block into a [metav1.ObjectMeta]; of the
    target descriptor "{apiVersion, kind, name, namespace?}" it carries the
    name and the namespace, the empty string when the namespace is
    omitted. *)
Record ObjectMeta : Type := {
  Name : string;
  Namespace : string
}.

(** [*schema.ResourceData].  The [labels] attribute is kept at its three
    levels: the prior state, the planned value (state merged with the
    diff), and the value written by [d.Set] during the operation. *)
Record ResourceData : Type := {
  Id : string;
  api_version : string;
  kind : string;
  metadata : ObjectMeta;
  labels_state : gmap string string;
  labels_planned : gmap string string;
  labels_set : option (gmap string string);
  force : bool
}.

(** [d.Get("labels")]: the topmost level that holds a value. *)
Definition Get_labels (d : ResourceData) : gmap string string :=
  default (labels_planned d) (labels_set d).

(** [d.GetChange("labels")]: the prior state and the planned value. *)
Definition GetChange_labels (d : ResourceData)
    : gmap string string * gmap string string :=
  (labels_state d, labels_planned d).

(** [d.SetId(id)] *)
Definition SetId (id : string) (d : ResourceData) : ResourceData :=
  {| Id := id; api_version := api_version d; kind := kind d;
     metadata := metadata d; labels_state := labels_state d;
     labels_planned := labels_planned d; labels_set := labels_set d;
     force := force d |}.

(** [d.Set("labels", labels)] *)
Definition Set_labels (labels : gmap string string) (d : ResourceData)
    : ResourceData :=
  {| Id := Id d; api_version := api_version d; kind := kind d;
     metadata := metadata d; labels_state := labels_state d;
     labels_planned := labels_planned d; labels_set := Some labels;
     force := force d |}.

(** The resource data the host framework hands to the next operation: what
    [d.Get("labels")] returned at the end of this one is the prior state of
    the next, which plans the labels [planned]. *)
Definition next_operation (planned : gmap string string) (d : ResourceData)
    : ResourceData :=
  {| Id := Id d; api_version := api_version d; kind := kind d;
     metadata := metadata d; labels_state := Get_labels d;
     labels_planned := planned; labels_set := None;
     force := force d |}.

(** ** The remote API, as seen through the client libraries *)

Record GroupVersion : Type := { gv_Group : string; gv_Version : string }.
Record GroupKind : Type := { gk_Group : string; gk_Kind : string }.
Record GroupVersionResource : Type := {
  gvr_Group : string; gvr_Version : string; gvr_Resource : string
}.

(** [gv.WithKind(kind).GroupKind()] *)
Definition WithKind_GroupKind (gv : GroupVersion) (kind : string) : GroupKind :=
  {| gk_Group := gv_Group gv; gk_Kind := kind |}.

Inductive RESTScopeName : Type :=
| RESTScopeNameNamespace
| RESTScopeNameRoot.

#[global] Instance RESTScopeName_eq_dec : EqDecision RESTScopeName.
Proof. solve_decision. Defined.

(** [*meta.RESTMapping] *)
Record RESTMapping_t : Type := {
  Resource : GroupVersionResource;
  Scope : RESTScopeName
}.

(** [dynamic.ResourceInterface]: [conn.Resource(gvr)], narrowed to a
    namespace or not. *)
Record ResourceInterface : Type := {
  ri_resource : GroupVersionResource;
  ri_namespace : option string
}.

Definition conn_Resource (gvr : GroupVersionResource) : ResourceInterface :=
  {| ri_resource := gvr; ri_namespace := None |}.

Definition in_Namespace (ns : string) (r : ResourceInterface) : ResourceInterface :=
  {| ri_resource := ri_resource r; ri_namespace := Some ns |}.

(** [*unstructured.Unstructured] as returned by [Get], restricted to what
    [GetLabels] and [GetManagedFields] read.  An object without labels
    carries the empty map. *)
Record Unstructured : Type := {
  GetLabels : gmap string string;
  GetManagedFields : list ManagedFieldsEntry
}.

Inductive PatchType : Type :=
| JSONPatchType
| MergePatchType
| StrategicMergePatchType
| ApplyPatchType.

(** [v1.PatchOptions]; [Force] is a [*bool]. *)
Record PatchOptions : Type := {
  FieldManager : string;
  Force : option bool
}.

(** One operation of a JSON patch (RFC 6902). *)
Inductive PatchOperation : Type :=
| AddOperation (path : string) (val : string)
| RemoveOperation (path : string)
| ReplaceOperation (path : string) (val : string).

Definition PatchOperations := list PatchOperation.

(** The object of variant A's apply patch: [patchobj] with its nested
    [patchmeta]; the [namespace] entry is present for namespaced kinds
    only. *)
Record ApplyObject : Type := {
  po_apiVersion : string;
  po_kind : string;
  po_name : string;
  po_labels : gmap string string;
  po_namespace : option string
}.

(** The document a patch request carries. *)
Inductive PatchBody : Type :=
| JSONPatchBody (ops : PatchOperations)
| ApplyBody (obj : ApplyObject).

(** A call made through the dynamic client. *)
Inductive Request : Type :=
| GetRequest (r : ResourceInterface) (name : string)
| PatchRequest (r : ResourceInterface) (name : string) (pt : PatchType)
    (data : PatchBody) (opts : PatchOptions).

(** The collaborators of the module: the provider's client sets [m], the
    discovery and REST-mapping helpers of client-go, the JSON encoder, and
    the API server behind the dynamic client.  [Server] is the state of the
    remote API, [Discovery] what [GetAPIGroupResources] returns.  A call
    that only yields a client or bytes is represented by its error, if any:
    the patch bytes are identified with the document they encode. *)
Record KubeClientsets (Server Discovery : Type) : Type := {
  DynamicClient : option Error;
  DiscoveryClient : option Error;
  GetAPIGroupResources : Discovery * option Error;
  RESTMapping : Discovery → GroupKind → string → Error + RESTMapping_t;
  ParseGroupVersion : string → Error + GroupVersion;
  MarshalJSON : PatchBody → option Error;
  Get : ResourceInterface → string → Server → Error + Unstructured;
  Patch : ResourceInterface → string → PatchType → PatchBody → PatchOptions →
          Server → Error + Server
}.
Arguments DynamicClient {Server Discovery} _.
Arguments DiscoveryClient {Server Discovery} _.
Arguments GetAPIGroupResources {Server Discovery} _.
Arguments RESTMapping {Server Discovery} _ _ _ _.
Arguments ParseGroupVersion {Server Discovery} _ _.
Arguments MarshalJSON {Server Discovery} _ _.
Arguments Get {Server Discovery} _ _ _ _.
Arguments Patch {Server Discovery} _ _ _ _ _ _ _.

(** ** Helpers of the provider that the two files call *)

(** Modelled from the spec: [diffStringMap], defined elsewhere in the
    provider.  It yields "a minimal JSON-patch add/remove/replace sequence
    computed from old vs. new label maps": a remove for every key of the old
    map that the new map lacks, then, for every key of the new map, a
    replace when the old map binds it to another value and an add when the
    old map lacks it.  The path of an operation is the prefix followed by
    the key. *)
Definition diffStringMap (pathPrefix : string)
    (oldV newV : gmap string string) : PatchOperations :=
  omap (λ kv : string * string,
          match newV !! kv.1 with
          | Some _ => None
          | None => Some (RemoveOperation (pathPrefix +:+ kv.1))
          end) (map_to_list oldV)
  ++
  omap (λ kv : string * string,
          match oldV !! kv.1 with
          | Some oldValue =>
              if decide (oldValue = kv.2) then None
              else Some (ReplaceOperation (pathPrefix +:+ kv.1) kv.2)
          | None => Some (AddOperation (pathPrefix +:+ kv.1) kv.2)
          end) (map_to_list newV).

(** Modelled from the spec: [ptrToBool], defined elsewhere in the provider;
    it hands the "force flag" of the apply patch over as a [*bool]. *)
Definition ptrToBool (b : bool) : option bool := Some b.

(** ** Diagnostics *)

Record Diagnostic : Type := { Summary : string }.
Definition Diagnostics := list Diagnostic.

(** [diag.FromErr(err)] for a non-nil [err]. *)
Definition FromErr (err : Error) : Diagnostics := [ {| Summary := err |} ].

(** ** The state the operations run in *)

(** The resource data [d] (a pointer, mutated in place), the remote API
    server, and the calls made through the dynamic client so far. *)
Record State (Server : Type) : Type := {
  data : ResourceData;
  server : Server;
  trace : list Request
}.
Arguments data {Server} _.
Arguments server {Server} _.
Arguments trace {Server} _.

(** A lifecycle function body: [Ok] is [return nil], [Err err] is
    [return diag.FromErr(err)]. *)
Definition M (Server A : Type) : Type := State Server → Result A * State Server.

#[global] Instance M_ret {Server} : MRet (M Server) :=
  λ A (a : A) s, (Ok a, s).

#[global] Instance M_bind {Server} : MBind (M Server) :=
  λ A B (k : A → M Server B) (c : M Server A) s,
    match c s with
    | (Ok a, s') => k a s'
    | (Err err, s') => (Err err, s')
    | (Panic reason, s') => (Panic reason, s')
    end.

(** What the host framework receives: the diagnostics, unless the
    goroutine panicked. *)
Definition diagnostics (r : Result unit) : option Diagnostics :=
  match r with
  | Ok _ => Some []
  | Err err => Some (FromErr err)
  | Panic _ => None
  end.

Section Primitives.
Context {Server Discovery : Type}.
Variable m : KubeClientsets Server Discovery.

(** [v, err := f(); if err != nil { return diag.FromErr(err) }] *)
Definition check {A} (r : Error + A) : M Server A :=
  λ s, match r with
       | inl err => (Err err, s)
       | inr a => (Ok a, s)
       end.

(** The same, for a call of which only the error is looked at. *)
Definition check_err (r : option Error) : M Server unit :=
  λ s, match r with
       | Some err => (Err err, s)
       | None => (Ok tt, s)
       end.

(** A helper returning [(v, error)] that may also panic. *)
Definition lift {A} (r : Result A) : M Server A := λ s, (r, s).

Definition get_d : M Server ResourceData := λ s, (Ok (data s), s).

Definition update_d (f : ResourceData → ResourceData) : M Server unit :=
  λ s, (Ok tt, {| data := f (data s); server := server s; trace := trace s |}).

(** [res, err := r.Get(ctx, name, v1.GetOptions{})], checked. *)
Definition r_Get (r : ResourceInterface) (name : string) : M Server Unstructured :=
  λ s,
    let s' := {| data := data s; server := server s;
                 trace := trace s ++ [GetRequest r name] |} in
    match Get m r name (server s) with
    | inl err => (Err err, s')
    | inr res => (Ok res, s')
    end.

(** [_, err = r.Patch(ctx, name, pt, patchbytes, opts)], checked. *)
Definition r_Patch (r : ResourceInterface) (name : string) (pt : PatchType)
    (patchbytes : PatchBody) (opts : PatchOptions) : M Server unit :=
  λ s,
    let tr := trace s ++ [PatchRequest r name pt patchbytes opts] in
    match Patch m r name pt patchbytes opts (server s) with
    | inl err => (Err err, {| data := data s; server := server s; trace := tr |})
    | inr srv => (Ok tt, {| data := data s; server := srv; trace := tr |})
    end.

(** The opening shared, line for line, by Read and Update in both
    variants: obtain the clients, resolve the kind to a REST mapping, and
    pick the namespaced or the cluster-wide resource client.  Returns
    [r], [name], the possibly defaulted [namespace], and whether the kind
    is namespaced.  The error of [GetAPIGroupResources] is assigned to
    [err] and overwritten by [ParseGroupVersion] without being read. *)
Definition resourceClient : M Server (ResourceInterface * string * string * bool) :=
  check_err (DynamicClient m) ;;
  d ← get_d ;
  let apiVersion := api_version d in
  let kind := kind d in
  let metadata := metadata d in
  let name := Name metadata in
  let namespace := Namespace metadata in
  check_err (DiscoveryClient m) ;;
  let agr := (GetAPIGroupResources m).1 in
  gv ← check (ParseGroupVersion m apiVersion) ;
  mapping ← check (RESTMapping m agr (WithKind_GroupKind gv kind) (gv_Version gv)) ;
  let namespacedResource := bool_decide (Scope mapping = RESTScopeNameNamespace) in
  if namespacedResource then
    let namespace := if bool_decide (namespace = "") then "default" else namespace in
    mret (in_Namespace namespace (conn_Resource (Resource mapping)),
          name, namespace, true)
  else
    mret (conn_Resource (Resource mapping), name, namespace, false).
End Primitives.

(** ** Variant A: server-side apply, managed-fields filter on read *)

Module VariantA.
Section Labels.
Context {Server Discovery : Type}.
Variable m : KubeClientsets Server Discovery.
Variable defaultFieldManagerName : string.
Variable buildIdWithVersionKind : ObjectMeta → string → string → string.

Definition resourceKubernetesLabelsRead : M Server unit :=
  '(r, name, _, _) ← resourceClient m ;
  (* get the resource labels *)
  res ← r_Get m r name ;
  d ← get_d ;
  let configuredLabels := Get_labels d in
  (* strip out the labels not managed by Terraform *)
  managedLabels ← lift (getManagedLabels (GetManagedFields res) defaultFieldManagerName) ;
  let labels :=
    filter (λ kv : string * string,
              let managed := is_Some (managedLabels !! ("f:" +:+ kv.1)) in
              let configured := is_Some (configuredLabels !! kv.1) in
              ¬ (¬ managed ∧ ¬ configured))
           (GetLabels res) in
  update_d (Set_labels labels) ;;
  mret tt.

Definition resourceKubernetesLabelsUpdate : M Server unit :=
  '(r, name, namespace, namespacedResource) ← resourceClient m ;
  d ← get_d ;
  (* craft the patch to update the labels *)
  let labels := if bool_decide (Id d = "") then ∅ else Get_labels d in
  let patchobj :=
    {| po_apiVersion := api_version d;
       po_kind := kind d;
       po_name := name;
       po_labels := labels;
       po_namespace := if namespacedResource : bool then Some namespace else None |} in
  let patchbytes := ApplyBody patchobj in
  check_err (MarshalJSON m patchbytes) ;;
  (* apply the patch *)
  r_Patch m r name ApplyPatchType patchbytes
    {| FieldManager := defaultFieldManagerName;
       Force := ptrToBool (force d) |} ;;
  resourceKubernetesLabelsRead.

Definition resourceKubernetesLabelsCreate : M Server unit :=
  update_d (λ d, SetId (buildIdWithVersionKind (metadata d) (api_version d) (kind d)) d) ;;
  resourceKubernetesLabelsUpdate.

Definition resourceKubernetesLabelsDelete : M Server unit :=
  update_d (SetId "") ;;
  resourceKubernetesLabelsUpdate.
End Labels.
End VariantA.

(** ** Variant B: JSON patch from [diffStringMap], unfiltered read *)

Module VariantB.
Section Labels.
Context {Server Discovery : Type}.
Variable m : KubeClientsets Server Discovery.
Variable defaultFieldManagerName : string.
Variable buildIdWithVersionKind : ObjectMeta → string → string → string.

Definition resourceKubernetesLabelsRead : M Server unit :=
  '(r, name, _, _) ← resourceClient m ;
  (* get the resource labels *)
  res ← r_Get m r name ;
  update_d (Set_labels (GetLabels res)) ;;
  mret tt.

Definition resourceKubernetesLabelsUpdate : M Server unit :=
  '(r, name, _, _) ← resourceClient m ;
  d ← get_d ;
  let '(old, new) := GetChange_labels d in
  (* if the ID is empty we're deleting the resource *)
  let new := if bool_decide (Id d = "") then ∅ else new in
  let patch := diffStringMap "/metadata/labels/" old new in
  let patchbytes := JSONPatchBody patch in
  check_err (MarshalJSON m patchbytes) ;;
  (* apply the patch *)
  r_Patch m r name JSONPatchType patchbytes
    {| FieldManager := defaultFieldManagerName;
       Force := None |} ;;
  resourceKubernetesLabelsRead.

Definition resourceKubernetesLabelsCreate : M Server unit :=
  update_d (λ d, SetId (buildIdWithVersionKind (metadata d) (api_version d) (kind d)) d) ;;
  resourceKubernetesLabelsUpdate.

Definition resourceKubernetesLabelsDelete : M Server unit :=
  update_d (SetId "") ;;
  resourceKubernetesLabelsUpdate.
End Labels.
End VariantB.

(** ** A reference model of the collaborators

    The API server and the client-go helpers are not part of the module.
    To state what the operations do to the remote labels, this section
    gives them a small executable model: objects with labels and managed
    fields, JSON patches applied per RFC 6902, and server-side apply by
    field ownership, both restricted to [metadata.labels]. *)

Module APIServer.

(** group, version, resource, namespace, name *)
Definition ObjectKey : Type := string * string * string * option string * string.

Definition object_key (r : ResourceInterface) (name : string) : ObjectKey :=
  (gvr_Group (ri_resource r), gvr_Version (ri_resource r),
   gvr_Resource (ri_resource r), ri_namespace r, name).

Abbreviation Server := (gmap ObjectKey Unstructured).

(** *** JSON patch *)

(** [strip_prefix p s] is [Some t] when [s = p ++ t]. *)
Fixpoint strip_prefix (p s : string) : option string :=
  match p, s with
  | EmptyString, _ => Some s
  | String a p', String b s' =>
      if Ascii.eqb a b then strip_prefix p' s' else None
  | String _ _, EmptyString => None
  end.

(** The label a JSON pointer under [/metadata/labels/] designates. *)
Definition label_of_path (path : string) : Error + string :=
  match strip_prefix "/metadata/labels/" path with
  | Some k => inr k
  | None => inl ("unsupported path " +:+ path)
  end.

(** One operation: [add] sets the member, [remove] and [replace] need it
    to exist. *)
Definition apply_operation (labels : gmap string string) (op : PatchOperation)
    : Error + gmap string string :=
  match op with
  | AddOperation path v =>
      match label_of_path path with
      | inl err => inl err
      | inr k => inr (<[k := v]> labels)
      end
  | RemoveOperation path =>
      match label_of_path path with
      | inl err => inl err
      | inr k =>
          match labels !! k with
          | Some _ => inr (delete k labels)
          | None => inl ("remove operation does not apply: missing key " +:+ k)
          end
      end
  | ReplaceOperation path v =>
      match label_of_path path with
      | inl err => inl err
      | inr k =>
          match labels !! k with
          | Some _ => inr (<[k := v]> labels)
          | None => inl ("replace operation does not apply: missing key " +:+ k)
          end
      end
  end.

Fixpoint apply_operations (labels : gmap string string) (ops : PatchOperations)
    : Error + gmap string string :=
  match ops with
  | [] => inr labels
  | op :: rest =>
      match apply_operation labels op with
      | inl err => inl err
      | inr labels' => apply_operations labels' rest
      end
  end.

(** An operation that, whenever it applies, leaves the label [k] as it
    is. *)
Definition leaves (k : string) (op : PatchOperation) : Prop :=
  ∀ labels labels', apply_operation labels op = inr labels' → labels' !! k = labels !! k.

(** *** Server-side apply *)

(** The [f:metadata/f:labels] member of an entry, empty when the entry
    does not have one. *)
Definition entry_labels (e : ManagedFieldsEntry) : gmap string value :=
  match FieldsV1 e with
  | Some f =>
      match json_Unmarshal (Raw f) with
      | inr mm =>
          match mm !! "f:metadata" with
          | Some (JObject metadata) =>
              match metadata !! "f:labels" with
              | Some (JObject l) => l
              | _ => ∅
              end
          | _ => ∅
          end
      | inl _ => ∅
      end
  | None => ∅
  end.

Definition owns (e : ManagedFieldsEntry) (k : string) : bool :=
  bool_decide (is_Some (entry_labels e !! ("f:" +:+ k))).

Definition owned_by (manager : string) (fields : list ManagedFieldsEntry)
    (k : string) : bool :=
  existsb (λ e, bool_decide (Manager e = manager) && owns e k) fields.

Definition owned_by_others (manager : string) (fields : list ManagedFieldsEntry)
    (k : string) : bool :=
  existsb (λ e, bool_decide (Manager e ≠ manager) && owns e k) fields.

(** A label of the applied configuration conflicts when another manager
    owns it with a different value. *)
Definition conflicts (manager : string) (obj : Unstructured)
    (applied : gmap string string) : gmap string string :=
  filter (λ kv : string * string,
            owned_by_others manager (GetManagedFields obj) kv.1 = true
            ∧ GetLabels obj !! kv.1 ≠ Some kv.2) applied.

(** The entry recording that [manager] owns exactly the labels [applied]. *)
Definition apply_entry (manager : string) (applied : gmap string string)
    : ManagedFieldsEntry :=
  {| Manager := manager;
     FieldsV1 := Some {| Raw := Encoding (JObject
       {[ "f:metadata" := JObject
         {[ "f:labels" := JObject
              (kmap (λ k : string, "f:" +:+ k) ((λ _, JObject ∅) <$> applied)) ]} ]}) |} |}.

#[global] Instance field_key_inj : Inj (=) (=) (λ k : string, "f:" +:+ k).
Proof. intros x y H. by injection H. Qed.

(** Whether the field [f:k] stays with its owner when the labels [taken]
    are taken over. *)
Definition still_owned (taken : gmap string string) (field : string) : bool :=
  match strip_prefix "f:" field with
  | Some k => bool_decide (taken !! k = None)
  | None => true
  end.

(** Ownership of the labels [taken] is withdrawn from an entry. *)
Definition disown (taken : gmap string string) (e : ManagedFieldsEntry)
    : ManagedFieldsEntry :=
  match FieldsV1 e with
  | Some f =>
      match json_Unmarshal (Raw f) with
      | inr mm =>
          match mm !! "f:metadata" with
          | Some (JObject metadata) =>
              match metadata !! "f:labels" with
              | Some (JObject l) =>
                  let l' := filter (λ kv : string * value,
                                       still_owned taken kv.1 = true) l in
                  {| Manager := Manager e;
                     FieldsV1 := Some {| Raw := Encoding (JObject
                       (<["f:metadata" := JObject (<["f:labels" := JObject l']> metadata)]> mm)) |} |}
              | _ => e
              end
          | _ => e
          end
      | inl _ => e
      end
  | None => e
  end.
(** Applying the labels [applied] as [manager]: a conflict fails the
    request unless it is forced; labels that only [manager] owned and that
    are no longer applied are removed; every other label stays. *)
Definition server_side_apply (manager : string) (force : bool)
    (applied : gmap string string) (obj : Unstructured) : Error + Unstructured :=
  let fields := GetManagedFields obj in
  let taken := conflicts manager obj applied in
  if bool_decide (taken ≠ ∅) && negb force
  then inl "Apply failed with conflicts"
  else
    let kept :=
      filter (λ kv : string * string,
                ¬ (owned_by manager fields kv.1 = true
                   ∧ owned_by_others manager fields kv.1 = false))
             (GetLabels obj) in
    inr {| GetLabels := applied ∪ kept;
           GetManagedFields :=
             (disown taken <$> filter (λ e, Manager e ≠ manager) fields)
             ++ (if bool_decide (applied = ∅) then []
                 else [apply_entry manager applied]) |}.

(** *** The dynamic client *)

Definition get (r : ResourceInterface) (name : string) (srv : Server)
    : Error + Unstructured :=
  match srv !! object_key r name with
  | Some obj => inr obj
  | None => inl (name +:+ " not found")
  end.

Definition patch (r : ResourceInterface) (name : string) (pt : PatchType)
    (body : PatchBody) (opts : PatchOptions) (srv : Server) : Error + Server :=
  match srv !! object_key r name with
  | None => inl (name +:+ " not found")
  | Some obj =>
      match pt, body with
      | JSONPatchType, JSONPatchBody ops =>
          match apply_operations (GetLabels obj) ops with
          | inl err => inl err
          | inr labels =>
              inr (<[object_key r name :=
                       {| GetLabels := labels;
                          GetManagedFields := GetManagedFields obj |}]> srv)
          end
      | ApplyPatchType, ApplyBody o =>
          if bool_decide (po_name o = name
                          ∧ (po_namespace o = None ∨ po_namespace o = ri_namespace r))
          then
            match server_side_apply (FieldManager opts) (default false (Force opts))
                                    (po_labels o) obj with
            | inl err => inl err
            | inr obj' => inr (<[object_key r name := obj']> srv)
            end
          else inl "the name of the object does not match the name on the URL"
      | _, _ => inl "unsupported patch"
      end
  end.

(** *** Discovery *)

#[global] Instance GroupKind_eq_dec : EqDecision GroupKind.
Proof. solve_decision. Defined.

(** What discovery returns: for a group, kind and version, the mapping. *)
Definition Discovery : Type := list (GroupKind * string * RESTMapping_t).

Definition rest_mapping (agr : Discovery) (gk : GroupKind) (version : string)
    : Error + RESTMapping_t :=
  match list_find (λ x : GroupKind * string * RESTMapping_t,
                     x.1.1 = gk ∧ x.1.2 = version) agr with
  | Some (_, x) => inr x.2
  | None => inl ("no matches for kind " +:+ gk_Kind gk +:+ " in version " +:+ version)
  end.

(** [cut s] splits [s] at its first slash. *)
Fixpoint cut (s : string) : option (string * string) :=
  match s with
  | EmptyString => None
  | String c rest =>
      if Ascii.eqb c "/"%char then Some ("", rest)
      else
        match cut rest with
        | Some (a, b) => Some (String c a, b)
        | None => None
        end
  end.

(** [schema.ParseGroupVersion] *)
Definition parse_group_version (gv : string) : Error + GroupVersion :=
  if bool_decide (gv = "" ∨ gv = "/")
  then inr {| gv_Group := ""; gv_Version := "" |}
  else
    match cut gv with
    | None => inr {| gv_Group := ""; gv_Version := gv |}
    | Some (g, v) =>
        match cut v with
        | None => inr {| gv_Group := g; gv_Version := v |}
        | Some _ => inl ("unexpected GroupVersion string: " +:+ gv)
        end
    end.

(** Client sets that work, over the discovery data [agr]. *)
Definition clients (agr : Discovery) : KubeClientsets Server Discovery :=
  {| DynamicClient := None;
     DiscoveryClient := None;
     GetAPIGroupResources := (agr, None);
     RESTMapping := rest_mapping;
     ParseGroupVersion := parse_group_version;
     MarshalJSON := λ _, None;
     Get := get;
     Patch := patch |}.

(** Client sets whose discovery request fails with [err]: no group
    resources come back. *)
Definition clients_discovery_failing (err : Error) : KubeClientsets Server Discovery :=
  {| DynamicClient := None;
     DiscoveryClient := None;
     GetAPIGroupResources := ([], Some err);
     RESTMapping := rest_mapping;
     ParseGroupVersion := parse_group_version;
     MarshalJSON := λ _, None;
     Get := get;
     Patch := patch |}.

End APIServer.

(** ** What the operations compute, by name *)

(** The label map variant A's Read stores: the labels of the fetched object
    minus the keys that are neither managed nor configured. *)
Definition stored_by_read_A (res : Unstructured) (managedLabels : gmap string value)
    (d : ResourceData) : gmap string string :=
  filter (λ kv : string * string,
            ¬ (¬ is_Some (managedLabels !! ("f:" +:+ kv.1))
               ∧ ¬ is_Some (Get_labels d !! kv.1)))
         (GetLabels res).

(** The labels the patch is built from: none when the ID is empty. *)
Definition patch_labels_A (d : ResourceData) : gmap string string :=
  if bool_decide (Id d = "") then ∅ else Get_labels d.

Definition patch_labels_B (d : ResourceData) : gmap string string :=
  if bool_decide (Id d = "") then ∅ else labels_planned d.

Definition patch_body_A (d : ResourceData) (name namespace : string)
    (namespaced : bool) : PatchBody :=
  ApplyBody {| po_apiVersion := api_version d; po_kind := kind d;
               po_name := name; po_labels := patch_labels_A d;
               po_namespace := if namespaced then Some namespace else None |}.

Definition patch_body_B (d : ResourceData) : PatchBody :=
  JSONPatchBody (diffStringMap "/metadata/labels/" (labels_state d) (patch_labels_B d)).

Definition patch_options_A (manager : string) (d : ResourceData) : PatchOptions :=
  {| FieldManager := manager; Force := ptrToBool (force d) |}.

Definition patch_options_B (manager : string) : PatchOptions :=
  {| FieldManager := manager; Force := None |}.

(** The resource client a request goes to. *)
Definition request_target (req : Request) : ResourceInterface :=
  match req with
  | GetRequest r _ => r
  | PatchRequest r _ _ _ _ => r
  end.

(** The requests an operation issues when run from [s]. *)
Definition requests_of {S A : Type} (op : M S A) (s : State S) : list Request :=
  drop (length (trace s)) (trace (op s).2).

(** The requests Read and Update issue, spelled out. *)
Section Requests.
Context {Server Discovery : Type}.
Variable m : KubeClientsets Server Discovery.
Variable manager : string.

Definition read_requests (s : State Server) : list Request :=
  match resourceClient m s with
  | (Ok (r, name, _, _), _) => [GetRequest r name]
  | _ => []
  end.

Definition updateA_requests (s : State Server) : list Request :=
  match resourceClient m s with
  | (Ok (r, name, namespace, namespaced), _) =>
      let body := patch_body_A (data s) name namespace namespaced in
      let opts := patch_options_A manager (data s) in
      match MarshalJSON m body with
      | Some _ => []
      | None =>
          PatchRequest r name ApplyPatchType body opts ::
          match Patch m r name ApplyPatchType body opts (server s) with
          | inl _ => []
          | inr _ => [GetRequest r name]
          end
      end
  | _ => []
  end.

Definition updateB_requests (s : State Server) : list Request :=
  match resourceClient m s with
  | (Ok (r, name, _, _), _) =>
      let body := patch_body_B (data s) in
      let opts := patch_options_B manager in
      match MarshalJSON m body with
      | Some _ => []
      | None =>
          PatchRequest r name JSONPatchType body opts ::
          match Patch m r name JSONPatchType body opts (server s) with
          | inl _ => []
          | inr _ => [GetRequest r name]
          end
      end
  | _ => []
  end.

End Requests.

(** The client sets [m] with the error of the discovery request replaced. *)
Definition with_discovery_error {Server Discovery : Type} (err : option Error)
    (m : KubeClientsets Server Discovery) : KubeClientsets Server Discovery :=
  {| DynamicClient := DynamicClient m;
     DiscoveryClient := DiscoveryClient m;
     GetAPIGroupResources := ((GetAPIGroupResources m).1, err);
     RESTMapping := RESTMapping m;
     ParseGroupVersion := ParseGroupVersion m;
     MarshalJSON := MarshalJSON m;
     Get := Get m;
     Patch := Patch m |}.

(** The state with [f] applied to the resource data. *)
Definition with_data {S : Type} (f : ResourceData → ResourceData) (s : State S) : State S :=
  {| data := f (data s); server := server s; trace := trace s |}.

(** ** Sample data *)

Module Sample.

(** An entry of [manager] owning the labels [keys]. *)
Definition labels_entry (manager : string) (keys : list string) : ManagedFieldsEntry :=
  {| Manager := manager;
     FieldsV1 := Some {| Raw := Encoding (JObject
       {[ "f:metadata" := JObject
         {[ "f:labels" := JObject
              (list_to_map ((λ k : string, ("f:" +:+ k, JObject ∅)) <$> keys)) ]} ]}) |} |}.

(** An entry of [manager] that owns fields under [f:data] only. *)
Definition data_entry (manager : string) : ManagedFieldsEntry :=
  {| Manager := manager;
     FieldsV1 := Some {| Raw := Encoding (JObject
       {[ "f:data" := JObject {[ "f:key" := JObject ∅ ]} ]}) |} |}.

(** A namespaced and a cluster-scoped kind. *)
Definition configmaps : RESTMapping_t :=
  {| Resource := {| gvr_Group := ""; gvr_Version := "v1"; gvr_Resource := "configmaps" |};
     Scope := RESTScopeNameNamespace |}.

Definition nodes : RESTMapping_t :=
  {| Resource := {| gvr_Group := ""; gvr_Version := "v1"; gvr_Resource := "nodes" |};
     Scope := RESTScopeNameRoot |}.

Definition discovery : APIServer.Discovery :=
  [ ({| gk_Group := ""; gk_Kind := "ConfigMap" |}, "v1", configmaps);
    ({| gk_Group := ""; gk_Kind := "Node" |}, "v1", nodes) ].

(** The resource data of the documentation's example: ConfigMap
    [my-config], no namespace given. *)
Definition resource_data (id : string) (state planned : gmap string string)
    : ResourceData :=
  {| Id := id; api_version := "v1"; kind := "ConfigMap";
     metadata := {| Name := "my-config"; Namespace := "" |};
     labels_state := state; labels_planned := planned; labels_set := None;
     force := false |}.

Definition node_data (id : string) (state planned : gmap string string)
    : ResourceData :=
  {| Id := id; api_version := "v1"; kind := "Node";
     metadata := {| Name := "worker-1"; Namespace := "" |};
     labels_state := state; labels_planned := planned; labels_set := None;
     force := false |}.

(** An ID builder standing in for [buildIdWithVersionKind]. *)
Definition build_id (meta : ObjectMeta) (apiVersion kind : string) : string :=
  "apiVersion=" +:+ apiVersion +:+ ",kind=" +:+ kind +:+ ",name=" +:+ Name meta.

Definition my_config : ResourceInterface :=
  in_Namespace "default" (conn_Resource (Resource configmaps)).

(** A server holding [my-config] (in namespace [default]) and the node
    [worker-1], both with the given labels and managed fields. *)
Definition cluster (labels : gmap string string) (fields : list ManagedFieldsEntry)
    : gmap APIServer.ObjectKey Unstructured :=
  {[ APIServer.object_key my_config "my-config" :=
       {| GetLabels := labels; GetManagedFields := fields |};
     APIServer.object_key (conn_Resource (Resource nodes)) "worker-1" :=
       {| GetLabels := labels; GetManagedFields := fields |} ]}.

Definition state (d : ResourceData) (srv : gmap APIServer.ObjectKey Unstructured)
    : State (gmap APIServer.ObjectKey Unstructured) :=
  {| data := d; server := srv; trace := [] |}.

End Sample.

(** The name a request is for. *)
Definition request_name (req : Request) : string :=
  match req with
  | GetRequest _ name => name
  | PatchRequest _ name _ _ _ => name
  end.

(** Resource data that agree on everything the configuration and the prior
    state provide: all but the ID and the labels written by [d.Set]. *)
Definition same_configuration (d d' : ResourceData) : Prop :=
  api_version d' = api_version d ∧ kind d' = kind d ∧ metadata d' = metadata d
  ∧ labels_state d' = labels_state d ∧ labels_planned d' = labels_planned d
  ∧ force d' = force d.

(** ** Further sample data *)

Module Cases.

(** An entry of [manager] that owns annotations but no labels. *)
Definition annotations_entry (manager : string) : ManagedFieldsEntry :=
  {| Manager := manager;
     FieldsV1 := Some {| Raw := Encoding (JObject
       {[ "f:metadata" := JObject
         {[ "f:annotations" := JObject {[ "f:note" := JObject ∅ ]} ]} ]}) |} |}.

(** An entry of [manager] whose bytes do not decode. *)
Definition garbled_entry (manager : string) (err : Error) : ManagedFieldsEntry :=
  {| Manager := manager; FieldsV1 := Some {| Raw := Garbled err |} |}.

(** An entry of [manager] without fields. *)
Definition fieldless_entry (manager : string) : ManagedFieldsEntry :=
  {| Manager := manager; FieldsV1 := None |}.

(** Client sets whose server accepts every patch and whose Get fails with
    [err]. *)
Definition clients_get_failing (agr : APIServer.Discovery) (err : Error)
    : KubeClientsets (gmap APIServer.ObjectKey Unstructured) APIServer.Discovery :=
  {| DynamicClient := None;
     DiscoveryClient := None;
     GetAPIGroupResources := (agr, None);
     RESTMapping := APIServer.rest_mapping;
     ParseGroupVersion := APIServer.parse_group_version;
     MarshalJSON := λ _, None;
     Get := λ _ _ _, inl err;
     Patch := APIServer.patch |}.

(** Client sets whose server accepts every patch and keeps its objects as
    they are. *)
Definition clients_patch_ignoring (agr : APIServer.Discovery)
    : KubeClientsets (gmap APIServer.ObjectKey Unstructured) APIServer.Discovery :=
  {| DynamicClient := None;
     DiscoveryClient := None;
     GetAPIGroupResources := (agr, None);
     RESTMapping := APIServer.rest_mapping;
     ParseGroupVersion := APIServer.parse_group_version;
     MarshalJSON := λ _, None;
     Get := APIServer.get;
     Patch := λ _ _ _ _ _ srv, inr srv |}.

(** Client sets whose encoder fails with [err]. *)
Definition clients_marshal_failing (agr : APIServer.Discovery) (err : Error)
    : KubeClientsets (gmap APIServer.ObjectKey Unstructured) APIServer.Discovery :=
  {| DynamicClient := None;
     DiscoveryClient := None;
     GetAPIGroupResources := (agr, None);
     RESTMapping := APIServer.rest_mapping;
     ParseGroupVersion := APIServer.parse_group_version;
     MarshalJSON := λ _, Some err;
     Get := APIServer.get;
     Patch := APIServer.patch |}.

(** Resource data for [my-config] with the API version, the kind and the
    namespace left open. *)
Definition resource_data_for (apiVersion kind namespace : string)
    (state planned : gmap string string) : ResourceData :=
  {| Id := "id"; api_version := apiVersion; kind := kind;
     metadata := {| Name := "my-config"; Namespace := namespace |};
     labels_state := state; labels_planned := planned; labels_set := None;
     force := false |}.

End Cases.

(** * Properties *)

(** ** The monad, unfolded *)

Ltac unfold_ops :=
  unfold VariantA.resourceKubernetesLabelsDelete, VariantA.resourceKubernetesLabelsCreate,
    VariantA.resourceKubernetesLabelsUpdate, VariantA.resourceKubernetesLabelsRead,
    VariantB.resourceKubernetesLabelsDelete, VariantB.resourceKubernetesLabelsCreate,
    VariantB.resourceKubernetesLabelsUpdate, VariantB.resourceKubernetesLabelsRead,
    resourceClient, mbind, M_bind, mret, M_ret, check, check_err, lift, get_d,
    update_d, r_Get, r_Patch in *.

Section Bind.
Context {Server : Type}.

Lemma bind_ok {A B} (c : M Server A) (k : A → M Server B) s a s' :
  c s = (Ok a, s') → (c ≫= k) s = k a s'.
Proof. intros H. unfold mbind, M_bind. by rewrite H. Qed.

Lemma bind_err {A B} (c : M Server A) (k : A → M Server B) s err s' :
  c s = (Err err, s') → (c ≫= k) s = (Err err, s').
Proof. intros H. unfold mbind, M_bind. by rewrite H. Qed.

Lemma bind_panic {A B} (c : M Server A) (k : A → M Server B) s reason s' :
  c s = (Panic reason, s') → (c ≫= k) s = (Panic reason, s').
Proof. intros H. unfold mbind, M_bind. by rewrite H. Qed.
End Bind.

(** ** The shared opening *)

Section ResourceClient.
Context {Server Discovery : Type}.
Variable m : KubeClientsets Server Discovery.

(** The opening only reads: the state comes out as it went in. *)
Lemma resourceClient_state (s : State Server) : (resourceClient m s).2 = s.
Proof.
  unfold_ops. destruct s as [d srv tr]; simpl.
  repeat case_match; simplify_eq/=; done.
Qed.

(** It never panics. *)
Lemma resourceClient_no_panic (s : State Server) reason s' :
  resourceClient m s ≠ (Panic reason, s').
Proof.
  unfold_ops. destruct s as [d srv tr]; simpl.
  repeat case_match; simplify_eq/=; done.
Qed.

(** When it succeeds, the clients were obtained, the kind resolved to a
    mapping, and the resource client is the one the scope calls for. *)
Lemma resourceClient_ok (s s' : State Server) r name namespace namespaced :
  resourceClient m s = (Ok (r, name, namespace, namespaced), s') →
  s' = s ∧
  ∃ gv mapping,
    DynamicClient m = None ∧ DiscoveryClient m = None ∧
    ParseGroupVersion m (api_version (data s)) = inr gv ∧
    RESTMapping m (GetAPIGroupResources m).1
      (WithKind_GroupKind gv (kind (data s))) (gv_Version gv) = inr mapping ∧
    name = Name (metadata (data s)) ∧
    namespaced = bool_decide (Scope mapping = RESTScopeNameNamespace) ∧
    namespace = (if namespaced
                 then if bool_decide (Namespace (metadata (data s)) = "")
                      then "default" else Namespace (metadata (data s))
                 else Namespace (metadata (data s))) ∧
    r = (if namespaced
         then in_Namespace namespace (conn_Resource (Resource mapping))
         else conn_Resource (Resource mapping)).
Proof.
  unfold_ops. destruct s as [d srv tr]; simpl.
  destruct (DynamicClient m) eqn:H1; [done|].
  destruct (DiscoveryClient m) eqn:H2; [done|].
  destruct (ParseGroupVersion m _) as [|gv] eqn:H3; [done|].
  destruct (RESTMapping m _ _ _) as [|mapping] eqn:H4; [done|].
  intros H. split; [by case_bool_decide; simplify_eq|].
  exists gv, mapping.
  case_bool_decide; simplify_eq; by split_and!.
Qed.

(** Conversely. *)
Lemma resourceClient_resolves (s : State Server) gv mapping :
  DynamicClient m = None → DiscoveryClient m = None →
  ParseGroupVersion m (api_version (data s)) = inr gv →
  RESTMapping m (GetAPIGroupResources m).1
    (WithKind_GroupKind gv (kind (data s))) (gv_Version gv) = inr mapping →
  resourceClient m s =
    (Ok (if bool_decide (Scope mapping = RESTScopeNameNamespace)
         then (in_Namespace (if bool_decide (Namespace (metadata (data s)) = "")
                             then "default" else Namespace (metadata (data s)))
                            (conn_Resource (Resource mapping)),
               Name (metadata (data s)),
               if bool_decide (Namespace (metadata (data s)) = "")
               then "default" else Namespace (metadata (data s)),
               true)
         else (conn_Resource (Resource mapping), Name (metadata (data s)),
               Namespace (metadata (data s)), false)), s).
Proof.
  intros H1 H2 H3 H4. unfold_ops. destruct s as [d srv tr]; simpl in *.
  rewrite H1; simpl. rewrite H2; simpl. rewrite H3; simpl. rewrite H4; simpl.
  by case_bool_decide.
Qed.
End ResourceClient.

Section Runs.
Context {Server Discovery : Type}.
Variable m : KubeClientsets Server Discovery.
Variable manager : string.

(** The opening depends on the resource data only. *)
Lemma resourceClient_data (s s' : State Server) x :
  resourceClient m s = (Ok x, s) → data s' = data s →
  resourceClient m s' = (Ok x, s').
Proof.
  destruct x as [[[r name] namespace] namespaced]. intros H Hd.
  apply resourceClient_ok in H as (_ & gv & mapping & H1 & H2 & H3 & H4 & -> & -> & -> & ->).
  rewrite <- Hd in *.
  rewrite (resourceClient_resolves m s' gv mapping H1 H2 H3 H4).
  by case_bool_decide.
Qed.

Lemma resourceClient_cases (s : State Server) :
  (∃ x, resourceClient m s = (Ok x, s)) ∨ (∃ err, resourceClient m s = (Err err, s)).
Proof.
  pose proof (resourceClient_state m s) as Hs.
  destruct (resourceClient m s) as [[x|err|reason] s'] eqn:H; simpl in Hs; subst s'.
  - left; eauto.
  - right; eauto.
  - by apply resourceClient_no_panic in H.
Qed.

(** *** Read *)

Lemma readA_fails (s : State Server) err :
  resourceClient m s = (Err err, s) →
  VariantA.resourceKubernetesLabelsRead m manager s = (Err err, s).
Proof.
  intros H. unfold VariantA.resourceKubernetesLabelsRead.
  by rewrite (bind_err _ _ _ _ _ H).
Qed.

Lemma readA_runs (s : State Server) r name namespace namespaced :
  resourceClient m s = (Ok (r, name, namespace, namespaced), s) →
  VariantA.resourceKubernetesLabelsRead m manager s =
    let tr := trace s ++ [GetRequest r name] in
    match Get m r name (server s) with
    | inl err => (Err err, {| data := data s; server := server s; trace := tr |})
    | inr res =>
        match getManagedLabels (GetManagedFields res) manager with
        | Ok managedLabels =>
            (Ok (), {| data := Set_labels (stored_by_read_A res managedLabels (data s)) (data s);
                       server := server s; trace := tr |})
        | Err err => (Err err, {| data := data s; server := server s; trace := tr |})
        | Panic reason => (Panic reason, {| data := data s; server := server s; trace := tr |})
        end
    end.
Proof.
  intros H. unfold VariantA.resourceKubernetesLabelsRead.
  rewrite (bind_ok _ _ _ _ _ H). unfold_ops; simpl.
  destruct (Get m r name (server s)) as [err|res]; [done|]. simpl.
  by destruct (getManagedLabels _ _).
Qed.

Lemma readB_fails (s : State Server) err :
  resourceClient m s = (Err err, s) →
  VariantB.resourceKubernetesLabelsRead m s = (Err err, s).
Proof.
  intros H. unfold VariantB.resourceKubernetesLabelsRead.
  by rewrite (bind_err _ _ _ _ _ H).
Qed.

Lemma readB_runs (s : State Server) r name namespace namespaced :
  resourceClient m s = (Ok (r, name, namespace, namespaced), s) →
  VariantB.resourceKubernetesLabelsRead m s =
    let tr := trace s ++ [GetRequest r name] in
    match Get m r name (server s) with
    | inl err => (Err err, {| data := data s; server := server s; trace := tr |})
    | inr res =>
        (Ok (), {| data := Set_labels (GetLabels res) (data s);
                   server := server s; trace := tr |})
    end.
Proof.
  intros H. unfold VariantB.resourceKubernetesLabelsRead.
  rewrite (bind_ok _ _ _ _ _ H). unfold_ops; simpl.
  by destruct (Get m r name (server s)) as [err|res].
Qed.

(** *** Update *)

Lemma updateA_fails (s : State Server) err :
  resourceClient m s = (Err err, s) →
  VariantA.resourceKubernetesLabelsUpdate m manager s = (Err err, s).
Proof.
  intros H. unfold VariantA.resourceKubernetesLabelsUpdate.
  by rewrite (bind_err _ _ _ _ _ H).
Qed.

Lemma updateA_runs (s : State Server) r name namespace namespaced :
  resourceClient m s = (Ok (r, name, namespace, namespaced), s) →
  VariantA.resourceKubernetesLabelsUpdate m manager s =
    let body := patch_body_A (data s) name namespace namespaced in
    let opts := patch_options_A manager (data s) in
    let tr := trace s ++ [PatchRequest r name ApplyPatchType body opts] in
    match MarshalJSON m body with
    | Some err => (Err err, s)
    | None =>
        match Patch m r name ApplyPatchType body opts (server s) with
        | inl err => (Err err, {| data := data s; server := server s; trace := tr |})
        | inr srv =>
            VariantA.resourceKubernetesLabelsRead m manager
              {| data := data s; server := srv; trace := tr |}
        end
    end.
Proof.
  intros H. unfold VariantA.resourceKubernetesLabelsUpdate.
  rewrite (bind_ok _ _ _ _ _ H).
  unfold mbind, M_bind, get_d, check_err, r_Patch, patch_body_A, patch_labels_A,
    patch_options_A; simpl.
  destruct (MarshalJSON m _); [by destruct s|].
  by destruct (Patch m _ _ _ _ _ _).
Qed.

Lemma updateB_fails (s : State Server) err :
  resourceClient m s = (Err err, s) →
  VariantB.resourceKubernetesLabelsUpdate m manager s = (Err err, s).
Proof.
  intros H. unfold VariantB.resourceKubernetesLabelsUpdate.
  by rewrite (bind_err _ _ _ _ _ H).
Qed.

Lemma updateB_runs (s : State Server) r name namespace namespaced :
  resourceClient m s = (Ok (r, name, namespace, namespaced), s) →
  VariantB.resourceKubernetesLabelsUpdate m manager s =
    let body := patch_body_B (data s) in
    let tr := trace s ++ [PatchRequest r name JSONPatchType body (patch_options_B manager)] in
    match MarshalJSON m body with
    | Some err => (Err err, s)
    | None =>
        match Patch m r name JSONPatchType body (patch_options_B manager) (server s) with
        | inl err => (Err err, {| data := data s; server := server s; trace := tr |})
        | inr srv =>
            VariantB.resourceKubernetesLabelsRead m
              {| data := data s; server := srv; trace := tr |}
        end
    end.
Proof.
  intros H. unfold VariantB.resourceKubernetesLabelsUpdate.
  rewrite (bind_ok _ _ _ _ _ H).
  unfold mbind, M_bind, get_d, check_err, r_Patch, patch_body_B, patch_labels_B,
    patch_options_B; simpl.
  destruct (MarshalJSON m _); [by destruct s|].
  by destruct (Patch m _ _ _ _ _ _).
Qed.

(** *** Create and Delete *)

Lemma deleteA_runs (s : State Server) :
  VariantA.resourceKubernetesLabelsDelete m manager s =
  VariantA.resourceKubernetesLabelsUpdate m manager (with_data (SetId "") s).
Proof. reflexivity. Qed.

Lemma deleteB_runs (s : State Server) :
  VariantB.resourceKubernetesLabelsDelete m manager s =
  VariantB.resourceKubernetesLabelsUpdate m manager (with_data (SetId "") s).
Proof. reflexivity. Qed.

Lemma createA_runs build (s : State Server) :
  VariantA.resourceKubernetesLabelsCreate m manager build s =
  VariantA.resourceKubernetesLabelsUpdate m manager
    (with_data (λ d, SetId (build (metadata d) (api_version d) (kind d)) d) s).
Proof. reflexivity. Qed.

Lemma createB_runs build (s : State Server) :
  VariantB.resourceKubernetesLabelsCreate m manager build s =
  VariantB.resourceKubernetesLabelsUpdate m manager
    (with_data (λ d, SetId (build (metadata d) (api_version d) (kind d)) d) s).
Proof. reflexivity. Qed.
End Runs.

(** ** Managed labels *)

Lemma getManagedLabels_from_app labels pre rest manager :
  getManagedLabels_from labels (pre ++ rest) manager =
  match getManagedLabels_from labels pre manager with
  | Ok l => getManagedLabels_from l rest manager
  | Err err => Err err
  | Panic reason => Panic reason
  end.
Proof.
  revert labels. induction pre as [|e pre IH]; intros labels; simpl.
  { by destruct (getManagedLabels_from labels rest manager). }
  destruct (bool_decide (Manager e ≠ manager)); [apply IH|].
  destruct (FieldsV1 e) as [f|]; [|done].
  destruct (json_Unmarshal (Raw f)) as [err|mm]; [done|].
  destruct (mm !! "f:metadata") as [[| | | | |metadata]|]; try done.
  destruct (metadata !! "f:labels") as [[| | | | |l]|]; apply IH.
Qed.

Lemma getManagedLabels_from_others labels rest manager :
  Forall (λ e, Manager e ≠ manager) rest →
  getManagedLabels_from labels rest manager = Ok labels.
Proof.
  induction 1 as [|e rest He _ IH]; simpl; [done|].
  by rewrite bool_decide_true.
Qed.

(** C9. In variant A, [getManagedLabels] asserts without checking that the
    decoded fields of an entry of this manager have an [f:metadata] object:
    when the member is missing or is not an object the function panics
    rather than return an error.  And when several entries are of this
    manager, the labels of the last one are the result, whatever the
    earlier ones held. *)
Theorem getManagedLabels_unchecked_assertion
    (manager : string) (pre post : list ManagedFieldsEntry)
    (e : ManagedFieldsEntry) (f : FieldsV1_t) (mm seen : gmap string value) :
  getManagedLabels pre manager = Ok seen →
  Manager e = manager →
  FieldsV1 e = Some f →
  json_Unmarshal (Raw f) = inr mm →
  ((∀ metadata, mm !! "f:metadata" ≠ Some (JObject metadata)) →
   ∃ reason, getManagedLabels (pre ++ e :: post) manager = Panic reason)
  ∧
  (∀ metadata l,
     mm !! "f:metadata" = Some (JObject metadata) →
     metadata !! "f:labels" = Some (JObject l) →
     Forall (λ e', Manager e' ≠ manager) post →
     getManagedLabels (pre ++ e :: post) manager = Ok l).
Proof.
  unfold getManagedLabels. intros Hpre He Hf Hmm.
  rewrite getManagedLabels_from_app, Hpre. simpl.
  rewrite bool_decide_false by (by intros ?). rewrite Hf, Hmm.
  split.
  - intros Hno. destruct (mm !! "f:metadata") as [[]|] eqn:Hmd; eauto.
    by destruct (Hno m).
  - intros metadata l -> -> Hpost. by apply getManagedLabels_from_others.
Qed.

Lemma getManagedLabels_unchecked_assertion_witness :
  (∃ reason,
     getManagedLabels
       [Sample.labels_entry "Terraform" ["a"]; Sample.data_entry "Terraform";
        Sample.labels_entry "kubectl" ["c"]] "Terraform" = Panic reason)
  ∧
  getManagedLabels
    [Sample.labels_entry "Terraform" ["a"]; Sample.labels_entry "Terraform" ["b"];
     Sample.labels_entry "kubectl" ["c"]] "Terraform"
  = Ok {[ "f:b" := JObject ∅ ]}.
Proof.
  split.
  - refine (proj1 (getManagedLabels_unchecked_assertion "Terraform"
      [Sample.labels_entry "Terraform" ["a"]] [Sample.labels_entry "kubectl" ["c"]]
      (Sample.data_entry "Terraform") _ _ _ eq_refl eq_refl eq_refl eq_refl) _).
    intros metadata H. vm_compute in H. discriminate H.
  - refine (proj2 (getManagedLabels_unchecked_assertion "Terraform"
      [Sample.labels_entry "Terraform" ["a"]] [Sample.labels_entry "kubectl" ["c"]]
      (Sample.labels_entry "Terraform" ["b"]) _ _ _ eq_refl eq_refl eq_refl eq_refl)
      _ _ eq_refl eq_refl _).
    repeat constructor; by vm_compute.
Defined.

(** ** Read *)

Section Read.
Context {Server Discovery : Type}.
Variable m : KubeClientsets Server Discovery.
Variable manager : string.

Lemma lookup_stored_by_read_A res managedLabels d k :
  stored_by_read_A res managedLabels d !! k =
  if decide (is_Some (managedLabels !! ("f:" +:+ k)) ∨ is_Some (Get_labels d !! k))
  then GetLabels res !! k else None.
Proof.
  unfold stored_by_read_A. apply option_eq; intros v.
  rewrite map_lookup_filter_Some; simpl.
  case_decide as Hk.
  - split; [by intros [? _]|]. intros Hv. split; [done|]. tauto.
  - split; [|done]. intros [_ Hnot]. destruct Hnot. tauto.
Qed.

Lemma read_results (s : State Server) r name namespace namespaced
    (res : Unstructured) (managedLabels : gmap string value) :
  resourceClient m s = (Ok (r, name, namespace, namespaced), s) →
  Get m r name (server s) = inr res →
  getManagedLabels (GetManagedFields res) manager = Ok managedLabels →
  VariantA.resourceKubernetesLabelsRead m manager s =
    (Ok (), {| data := Set_labels (stored_by_read_A res managedLabels (data s)) (data s);
               server := server s; trace := trace s ++ [GetRequest r name] |})
  ∧ VariantB.resourceKubernetesLabelsRead m s =
    (Ok (), {| data := Set_labels (GetLabels res) (data s);
               server := server s; trace := trace s ++ [GetRequest r name] |}).
Proof.
  intros Hr Hget Hml.
  rewrite (readA_runs m manager s r name namespace namespaced Hr).
  rewrite (readB_runs m s r name namespace namespaced Hr).
  simpl. by rewrite Hget, Hml.
Qed.

(** C3. Read of variant A stores the labels of the fetched object minus
    exactly the keys that are neither configured nor attributed to this
    manager in the managed fields; Read of variant B stores the labels of
    the fetched object as they are. *)
Theorem read_stores_filtered_or_raw (s : State Server) r name namespace namespaced
    (res : Unstructured) (managedLabels : gmap string value) :
  resourceClient m s = (Ok (r, name, namespace, namespaced), s) →
  Get m r name (server s) = inr res →
  getManagedLabels (GetManagedFields res) manager = Ok managedLabels →
  let outA := VariantA.resourceKubernetesLabelsRead m manager s in
  let outB := VariantB.resourceKubernetesLabelsRead m s in
  (outA.1 = Ok () ∧
   ∀ k, Get_labels (data outA.2) !! k =
        if decide (is_Some (managedLabels !! ("f:" +:+ k))
                   ∨ is_Some (Get_labels (data s) !! k))
        then GetLabels res !! k else None)
  ∧
  (outB.1 = Ok () ∧ Get_labels (data outB.2) = GetLabels res).
Proof.
  intros Hr Hget Hml. simpl.
  destruct (read_results s r name namespace namespaced res managedLabels
              Hr Hget Hml) as [-> ->].
  simpl. split; [split; [done|]|done].
  intros k. apply lookup_stored_by_read_A.
Qed.

(** Read never writes to the server. *)
Lemma readA_server (s : State Server) :
  server (VariantA.resourceKubernetesLabelsRead m manager s).2 = server s.
Proof.
  destruct (resourceClient_cases m s) as [[[[[r name] ns] nsd] H]|[err H]].
  - rewrite (readA_runs m manager s r name ns nsd H). simpl.
    destruct (Get m r name (server s)); [done|].
    by destruct (getManagedLabels _ _).
  - by rewrite (readA_fails m manager s err H).
Qed.

Lemma readB_server (s : State Server) :
  server (VariantB.resourceKubernetesLabelsRead m s).2 = server s.
Proof.
  destruct (resourceClient_cases m s) as [[[[[r name] ns] nsd] H]|[err H]].
  - rewrite (readB_runs m s r name ns nsd H). simpl.
    by destruct (Get m r name (server s)).
  - by rewrite (readB_fails m s err H).
Qed.

(** C4, as amended. A label of the remote object whose key is neither
    configured nor attributed to this manager stays on the remote object
    when the resource is read: Read leaves the server as it was.  Variant B
    keeps the label in the label map it stores; variant A strips it from
    the label map it stores. *)
Theorem read_keeps_remote_label (s : State Server) r name namespace namespaced
    (res : Unstructured) (managedLabels : gmap string value) (k v : string) :
  resourceClient m s = (Ok (r, name, namespace, namespaced), s) →
  Get m r name (server s) = inr res →
  getManagedLabels (GetManagedFields res) manager = Ok managedLabels →
  GetLabels res !! k = Some v →
  Get_labels (data s) !! k = None →
  managedLabels !! ("f:" +:+ k) = None →
  let outA := VariantA.resourceKubernetesLabelsRead m manager s in
  let outB := VariantB.resourceKubernetesLabelsRead m s in
  server outA.2 = server s ∧ server outB.2 = server s
  ∧ Get_labels (data outB.2) !! k = Some v
  ∧ Get_labels (data outA.2) !! k = None.
Proof.
  intros Hr Hget Hml Hk Hcfg Hman. simpl.
  split_and!; [apply readA_server|apply readB_server|..];
    destruct (read_results s r name namespace namespaced res managedLabels
                Hr Hget Hml) as [HA HB]; rewrite ?HA, ?HB; simpl; [done|].
  unfold Get_labels at 1; simpl.
  rewrite lookup_stored_by_read_A, Hcfg, Hman. case_decide as H; [|done].
  by destruct H as [[? ?]|[? ?]].
Qed.
End Read.

Lemma read_stores_filtered_or_raw_witness :
  let s := Sample.state (Sample.resource_data "id" ∅ {[ "a" := "1" ]})
             (Sample.cluster {[ "a" := "1"; "b" := "2"; "env" := "prod" ]}
                [Sample.labels_entry "Terraform" ["b"]]) in
  let outA := VariantA.resourceKubernetesLabelsRead
                (APIServer.clients Sample.discovery) "Terraform" s in
  let outB := VariantB.resourceKubernetesLabelsRead
                (APIServer.clients Sample.discovery) s in
  (Get_labels (data outA.2) !! "a" = Some "1"
   ∧ Get_labels (data outA.2) !! "b" = Some "2"
   ∧ Get_labels (data outA.2) !! "env" = None)
  ∧ Get_labels (data outB.2) = {[ "a" := "1"; "b" := "2"; "env" := "prod" ]}.
Proof.
  intros s.
  destruct (read_stores_filtered_or_raw (APIServer.clients Sample.discovery)
              "Terraform" s Sample.my_config "my-config" "default" true
              _ _ eq_refl eq_refl eq_refl) as [[_ HA] [_ HB]].
  simpl. split; [|exact HB].
  rewrite !HA. by vm_compute.
Defined.

Lemma read_keeps_remote_label_witness :
  let s := Sample.state (Sample.resource_data "id" ∅ {[ "a" := "1" ]})
             (Sample.cluster {[ "a" := "1"; "env" := "prod" ]}
                [Sample.labels_entry "Terraform" ["a"]]) in
  let outA := VariantA.resourceKubernetesLabelsRead
                (APIServer.clients Sample.discovery) "Terraform" s in
  let outB := VariantB.resourceKubernetesLabelsRead
                (APIServer.clients Sample.discovery) s in
  server outA.2 = server s ∧ server outB.2 = server s
  ∧ Get_labels (data outB.2) !! "env" = Some "prod"
  ∧ Get_labels (data outA.2) !! "env" = None.
Proof.
  intros s.
  exact (read_keeps_remote_label (APIServer.clients Sample.discovery)
           "Terraform" s Sample.my_config "my-config" "default" true
           _ _ "env" "prod" eq_refl eq_refl eq_refl eq_refl eq_refl eq_refl).
Defined.

(** C4 as stated fails for variant A: with [env=prod] on the remote object,
    nothing configured and nothing attributed to the manager, the label map
    stored by Read does not hold [env]. *)
Lemma read_A_strips_unmanaged_label :
  ¬ (∀ (m : KubeClientsets (gmap APIServer.ObjectKey Unstructured) APIServer.Discovery)
       (manager : string) s r name namespace namespaced res managedLabels
       (k v : string),
       resourceClient m s = (Ok (r, name, namespace, namespaced), s) →
       Get m r name (server s) = inr res →
       getManagedLabels (GetManagedFields res) manager = Ok managedLabels →
       GetLabels res !! k = Some v →
       Get_labels (data s) !! k = None →
       managedLabels !! ("f:" +:+ k) = None →
       Get_labels (data (VariantA.resourceKubernetesLabelsRead m manager s).2) !! k
       = Some v).
Proof.
  intros H.
  specialize (H (APIServer.clients Sample.discovery) "Terraform"
                (Sample.state (Sample.resource_data "id" ∅ ∅)
                   (Sample.cluster {[ "env" := "prod" ]} []))
                Sample.my_config "my-config" "default" true _ _ "env" "prod"
                eq_refl eq_refl eq_refl eq_refl eq_refl eq_refl).
  vm_compute in H. discriminate H.
Qed.

(** ** The requests and the resource data of a run *)

Section Traces.
Context {Server Discovery : Type}.
Variable m : KubeClientsets Server Discovery.
Variable manager : string.

Lemma requests_of_app {A} (op : M Server A) (s : State Server) new :
  trace (op s).2 = trace s ++ new → requests_of op s = new.
Proof. intros H. unfold requests_of. rewrite H. apply drop_app_length. Qed.

Lemma readA_trace (s : State Server) :
  trace (VariantA.resourceKubernetesLabelsRead m manager s).2
  = trace s ++ read_requests m s.
Proof.
  unfold read_requests.
  destruct (resourceClient_cases m s) as [[[[[r name] ns] nsd] H]|[err H]].
  - rewrite (readA_runs m manager s r name ns nsd H), H. simpl.
    destruct (Get m r name (server s)); [done|].
    by destruct (getManagedLabels _ _).
  - rewrite (readA_fails m manager s err H), H. simpl. by rewrite app_nil_r.
Qed.

Lemma readB_trace (s : State Server) :
  trace (VariantB.resourceKubernetesLabelsRead m s).2 = trace s ++ read_requests m s.
Proof.
  unfold read_requests.
  destruct (resourceClient_cases m s) as [[[[[r name] ns] nsd] H]|[err H]].
  - rewrite (readB_runs m s r name ns nsd H), H. simpl.
    by destruct (Get m r name (server s)).
  - rewrite (readB_fails m s err H), H. simpl. by rewrite app_nil_r.
Qed.

Lemma updateA_trace (s : State Server) :
  trace (VariantA.resourceKubernetesLabelsUpdate m manager s).2
  = trace s ++ updateA_requests m manager s.
Proof.
  unfold updateA_requests.
  destruct (resourceClient_cases m s) as [[[[[r name] ns] nsd] H]|[err H]].
  - rewrite (updateA_runs m manager s r name ns nsd H), H. simpl.
    destruct (MarshalJSON m _); [by rewrite app_nil_r|].
    destruct (Patch m _ _ _ _ _ _) as [err|srv]; [done|].
    rewrite readA_trace. unfold read_requests.
    erewrite (resourceClient_data m s _ _ H) by done. simpl.
    by rewrite <- app_assoc.
  - rewrite (updateA_fails m manager s err H), H. simpl. by rewrite app_nil_r.
Qed.

Lemma updateB_trace (s : State Server) :
  trace (VariantB.resourceKubernetesLabelsUpdate m manager s).2
  = trace s ++ updateB_requests m manager s.
Proof.
  unfold updateB_requests.
  destruct (resourceClient_cases m s) as [[[[[r name] ns] nsd] H]|[err H]].
  - rewrite (updateB_runs m manager s r name ns nsd H), H. simpl.
    destruct (MarshalJSON m _); [by rewrite app_nil_r|].
    destruct (Patch m _ _ _ _ _ _) as [err|srv]; [done|].
    rewrite readB_trace. unfold read_requests.
    erewrite (resourceClient_data m s _ _ H) by done. simpl.
    by rewrite <- app_assoc.
  - rewrite (updateB_fails m manager s err H), H. simpl. by rewrite app_nil_r.
Qed.

(** Only [SetId] touches the ID. *)
Lemma readA_Id (s : State Server) :
  Id (data (VariantA.resourceKubernetesLabelsRead m manager s).2) = Id (data s).
Proof.
  destruct (resourceClient_cases m s) as [[[[[r name] ns] nsd] H]|[err H]].
  - rewrite (readA_runs m manager s r name ns nsd H). simpl.
    destruct (Get m r name (server s)); [done|].
    by destruct (getManagedLabels _ _).
  - by rewrite (readA_fails m manager s err H).
Qed.

Lemma readB_Id (s : State Server) :
  Id (data (VariantB.resourceKubernetesLabelsRead m s).2) = Id (data s).
Proof.
  destruct (resourceClient_cases m s) as [[[[[r name] ns] nsd] H]|[err H]].
  - rewrite (readB_runs m s r name ns nsd H). simpl.
    by destruct (Get m r name (server s)).
  - by rewrite (readB_fails m s err H).
Qed.

Lemma updateA_Id (s : State Server) :
  Id (data (VariantA.resourceKubernetesLabelsUpdate m manager s).2) = Id (data s).
Proof.
  destruct (resourceClient_cases m s) as [[[[[r name] ns] nsd] H]|[err H]].
  - rewrite (updateA_runs m manager s r name ns nsd H). simpl.
    destruct (MarshalJSON m _); [done|].
    destruct (Patch m _ _ _ _ _ _) as [err|srv]; [done|].
    by rewrite readA_Id.
  - by rewrite (updateA_fails m manager s err H).
Qed.

Lemma updateB_Id (s : State Server) :
  Id (data (VariantB.resourceKubernetesLabelsUpdate m manager s).2) = Id (data s).
Proof.
  destruct (resourceClient_cases m s) as [[[[[r name] ns] nsd] H]|[err H]].
  - rewrite (updateB_runs m manager s r name ns nsd H). simpl.
    destruct (MarshalJSON m _); [done|].
    destruct (Patch m _ _ _ _ _ _) as [err|srv]; [done|].
    by rewrite readB_Id.
  - by rewrite (updateB_fails m manager s err H).
Qed.
End Traces.

Section Lifecycle.
Context {Server Discovery : Type}.
Variable m : KubeClientsets Server Discovery.
Variable manager : string.

Lemma requests_of_readA s :
  requests_of (VariantA.resourceKubernetesLabelsRead m manager) s = read_requests m s.
Proof. apply requests_of_app, readA_trace. Qed.

Lemma requests_of_readB s :
  requests_of (VariantB.resourceKubernetesLabelsRead m) s = read_requests m s.
Proof. apply requests_of_app, readB_trace. Qed.

Lemma requests_of_updateA s :
  requests_of (VariantA.resourceKubernetesLabelsUpdate m manager) s
  = updateA_requests m manager s.
Proof. apply requests_of_app, updateA_trace. Qed.

Lemma requests_of_updateB s :
  requests_of (VariantB.resourceKubernetesLabelsUpdate m manager) s
  = updateB_requests m manager s.
Proof. apply requests_of_app, updateB_trace. Qed.

(** Every request of Read and Update goes to the resource client the
    opening picked. *)
Lemma requests_go_to_resourceClient (s : State Server) op req :
  op ∈ [VariantA.resourceKubernetesLabelsRead m manager;
        VariantA.resourceKubernetesLabelsUpdate m manager;
        VariantB.resourceKubernetesLabelsRead m;
        VariantB.resourceKubernetesLabelsUpdate m manager] →
  req ∈ requests_of op s →
  ∃ name namespace namespaced,
    resourceClient m s = (Ok (request_target req, name, namespace, namespaced), s).
Proof.
  intros Hop Hreq.
  assert (req ∈ read_requests m s ∨ req ∈ updateA_requests m manager s
          ∨ req ∈ updateB_requests m manager s) as Hcases.
  { repeat (apply elem_of_cons in Hop as [->|Hop]);
      [rewrite requests_of_readA in Hreq|rewrite requests_of_updateA in Hreq
      |rewrite requests_of_readB in Hreq|rewrite requests_of_updateB in Hreq|];
      [tauto..|by apply elem_of_nil in Hop]. }
  clear Hop Hreq.
  unfold read_requests, updateA_requests, updateB_requests in Hcases.
  destruct (resourceClient_cases m s) as [[[[[r name] ns] nsd] H]|[err H]];
    rewrite H in Hcases; simpl in Hcases.
  - exists name, ns, nsd.
    assert (request_target req = r) as ->; [|done].
    destruct Hcases as [Hc|[Hc|Hc]].
    + by apply list_elem_of_singleton in Hc as ->.
    + destruct (MarshalJSON m _); [by apply elem_of_nil in Hc|].
      apply elem_of_cons in Hc as [->|Hc]; [done|].
      destruct (Patch m _ _ _ _ _ _); [by apply elem_of_nil in Hc|].
      by apply list_elem_of_singleton in Hc as ->.
    + destruct (MarshalJSON m _); [by apply elem_of_nil in Hc|].
      apply elem_of_cons in Hc as [->|Hc]; [done|].
      destruct (Patch m _ _ _ _ _ _); [by apply elem_of_nil in Hc|].
      by apply list_elem_of_singleton in Hc as ->.
  - destruct Hcases as [Hc|[Hc|Hc]]; by apply elem_of_nil in Hc.
Qed.

(** C6. Every request that Read or Update issues for a namespace-scoped
    kind with the namespace left empty goes to namespace [default]; for a
    cluster-scoped kind the requests carry no namespace. *)
Theorem namespace_defaulting (s : State Server) gv mapping op req :
  ParseGroupVersion m (api_version (data s)) = inr gv →
  RESTMapping m (GetAPIGroupResources m).1
    (WithKind_GroupKind gv (kind (data s))) (gv_Version gv) = inr mapping →
  op ∈ [VariantA.resourceKubernetesLabelsRead m manager;
        VariantA.resourceKubernetesLabelsUpdate m manager;
        VariantB.resourceKubernetesLabelsRead m;
        VariantB.resourceKubernetesLabelsUpdate m manager] →
  req ∈ requests_of op s →
  (Scope mapping = RESTScopeNameNamespace →
   Namespace (metadata (data s)) = "" →
   request_target req =
     {| ri_resource := Resource mapping; ri_namespace := Some "default" |})
  ∧
  (Scope mapping = RESTScopeNameRoot →
   request_target req =
     {| ri_resource := Resource mapping; ri_namespace := None |}).
Proof.
  intros Hgv Hmap Hop Hreq.
  destruct (requests_go_to_resourceClient s op req Hop Hreq) as (name & ns & nsd & H).
  apply resourceClient_ok in H
    as (_ & gv' & mapping' & _ & _ & Hgv' & Hmap' & _ & Hnsd & Hns & Hr).
  rewrite Hgv in Hgv'. simplify_eq. rewrite Hmap in Hmap'. simplify_eq.
  split.
  - intros Hscope Hempty. rewrite Hr. rewrite Hscope, Hempty.
    by rewrite !bool_decide_true.
  - intros Hscope. rewrite Hr. rewrite Hscope. by rewrite bool_decide_false.
Qed.

(** Every patch of Update is built from the labels [patch_labels_A] or
    [patch_labels_B] pick, under the fixed field manager. *)
Lemma updateA_patches (s : State Server) :
  Forall (λ req, match req with
                 | PatchRequest _ _ pt body opts =>
                     pt = ApplyPatchType ∧ FieldManager opts = manager ∧
                     ∃ obj, body = ApplyBody obj
                            ∧ po_labels obj = patch_labels_A (data s)
                 | GetRequest _ _ => True
                 end)
    (requests_of (VariantA.resourceKubernetesLabelsUpdate m manager) s).
Proof.
  rewrite requests_of_updateA. unfold updateA_requests.
  destruct (resourceClient m s) as [[[[[r name] ns] nsd]|err|reason] s'']; try done.
  simpl. destruct (MarshalJSON m _); [done|].
  constructor; [by eauto|]. by destruct (Patch m _ _ _ _ _ _); repeat constructor.
Qed.

Lemma updateB_patches (s : State Server) :
  Forall (λ req, match req with
                 | PatchRequest _ _ pt body opts =>
                     pt = JSONPatchType ∧ FieldManager opts = manager ∧
                     body = patch_body_B (data s)
                 | GetRequest _ _ => True
                 end)
    (requests_of (VariantB.resourceKubernetesLabelsUpdate m manager) s).
Proof.
  rewrite requests_of_updateB. unfold updateB_requests.
  destruct (resourceClient m s) as [[[[[r name] ns] nsd]|err|reason] s'']; try done.
  simpl. destruct (MarshalJSON m _); [done|].
  constructor; [done|]. by destruct (Patch m _ _ _ _ _ _); repeat constructor.
Qed.

(** C8. Delete sets the ID to the empty string and then runs Update on the
    same resource data; Update builds its patch from the empty label map
    when the ID is empty and from the configured labels otherwise. *)
Theorem delete_reinvokes_update_with_empty_labels (s : State Server) :
  (VariantA.resourceKubernetesLabelsDelete m manager s
   = VariantA.resourceKubernetesLabelsUpdate m manager (with_data (SetId "") s)
   ∧ VariantB.resourceKubernetesLabelsDelete m manager s
     = VariantB.resourceKubernetesLabelsUpdate m manager (with_data (SetId "") s))
  ∧ Id (data (with_data (SetId "") s)) = ""
  ∧ Forall (λ req, match req with
                   | PatchRequest _ _ pt body opts =>
                       pt = ApplyPatchType ∧
                       ∃ obj, body = ApplyBody obj ∧
                              po_labels obj = if bool_decide (Id (data s) = "")
                                              then ∅ else Get_labels (data s)
                   | GetRequest _ _ => True
                   end)
      (requests_of (VariantA.resourceKubernetesLabelsUpdate m manager) s)
  ∧ Forall (λ req, match req with
                   | PatchRequest _ _ pt body opts =>
                       pt = JSONPatchType ∧
                       body = JSONPatchBody
                         (diffStringMap "/metadata/labels/" (labels_state (data s))
                            (if bool_decide (Id (data s) = "")
                             then ∅ else labels_planned (data s)))
                   | GetRequest _ _ => True
                   end)
      (requests_of (VariantB.resourceKubernetesLabelsUpdate m manager) s)
  ∧ Forall (λ req, match req with
                   | PatchRequest _ _ _ body _ =>
                       ∃ obj, body = ApplyBody obj ∧ po_labels obj = ∅
                   | GetRequest _ _ => True
                   end)
      (requests_of (VariantA.resourceKubernetesLabelsDelete m manager) s)
  ∧ Forall (λ req, match req with
                   | PatchRequest _ _ _ body _ =>
                       body = JSONPatchBody
                         (diffStringMap "/metadata/labels/" (labels_state (data s)) ∅)
                   | GetRequest _ _ => True
                   end)
      (requests_of (VariantB.resourceKubernetesLabelsDelete m manager) s).
Proof.
  split_and!; try done.
  - eapply Forall_impl; [apply updateA_patches|]. intros [] Hq; [done|].
    destruct Hq as (Hpt & _ & obj & Hbody & Hl). split; [done|]. by exists obj.
  - eapply Forall_impl; [apply updateB_patches|]. intros [] Hq; [done|].
    by destruct Hq as (Hpt & _ & Hbody).
  - pose proof (updateA_patches (with_data (SetId "") s)) as H.
    unfold requests_of in *. simpl in H.
    eapply Forall_impl; [exact H|]. intros [] Hq; [done|].
    destruct Hq as (_ & _ & obj & Hbody & Hl). by exists obj.
  - pose proof (updateB_patches (with_data (SetId "") s)) as H.
    unfold requests_of in *. simpl in H.
    eapply Forall_impl; [exact H|]. intros [] Hq; [done|].
    by destruct Hq as (_ & _ & Hbody).
Qed.

(** C10. Delete clears the ID before anything can fail and never puts it
    back: when the update it runs ends with a diagnostic, the resource data
    is left with the empty ID, whatever the ID was before. *)
Theorem delete_leaves_id_cleared_on_error (s : State Server) (err : Error) :
  ((VariantA.resourceKubernetesLabelsDelete m manager s).1 = Err err →
   Id (data (VariantA.resourceKubernetesLabelsDelete m manager s).2) = "")
  ∧
  ((VariantB.resourceKubernetesLabelsDelete m manager s).1 = Err err →
   Id (data (VariantB.resourceKubernetesLabelsDelete m manager s).2) = "").
Proof.
  split; intros _.
  - by rewrite deleteA_runs, updateA_Id.
  - by rewrite deleteB_runs, updateB_Id.
Qed.
End Lifecycle.

Lemma namespace_defaulting_witness :
  let m := APIServer.clients Sample.discovery in
  let s := Sample.state (Sample.resource_data "id" ∅ {[ "a" := "1" ]})
             (Sample.cluster ∅ []) in
  let n := Sample.state (Sample.node_data "id" ∅ {[ "a" := "1" ]})
             (Sample.cluster ∅ []) in
  (requests_of (VariantB.resourceKubernetesLabelsRead m) s
   = [GetRequest Sample.my_config "my-config"]
   ∧ ∀ req, req ∈ requests_of (VariantB.resourceKubernetesLabelsRead m) s →
            request_target req = Sample.my_config)
  ∧
  (requests_of (VariantA.resourceKubernetesLabelsRead m "Terraform") n
   = [GetRequest (conn_Resource (Resource Sample.nodes)) "worker-1"]
   ∧ ∀ req, req ∈ requests_of (VariantA.resourceKubernetesLabelsRead m "Terraform") n →
            request_target req = conn_Resource (Resource Sample.nodes)).
Proof.
  intros m s n. split; (split; [by vm_compute|]); intros req Hreq.
  - refine (proj1 (namespace_defaulting m "Terraform" s _ Sample.configmaps _ req
                     eq_refl eq_refl _ Hreq) eq_refl eq_refl).
    apply list_elem_of_further, list_elem_of_further, list_elem_of_here.
  - refine (proj2 (namespace_defaulting m "Terraform" n _ Sample.nodes _ req
                     eq_refl eq_refl _ Hreq) eq_refl).
    apply list_elem_of_here.
Defined.

Lemma delete_leaves_id_cleared_on_error_witness :
  let m := APIServer.clients Sample.discovery in
  let s := Sample.state (Sample.resource_data "id" {[ "a" := "1" ]} {[ "a" := "1" ]}) ∅ in
  Id (data s) = "id"
  ∧ Id (data (VariantA.resourceKubernetesLabelsDelete m "Terraform" s).2) = ""
  ∧ Id (data (VariantB.resourceKubernetesLabelsDelete m "Terraform" s).2) = "".
Proof.
  intros m s.
  destruct (delete_leaves_id_cleared_on_error m "Terraform" s "my-config not found")
    as [HA HB].
  split; [reflexivity|]. split; [apply HA|apply HB]; by vm_compute.
Defined.

(** ** Errors *)

Section Errors.
Context {Server Discovery : Type}.
Variable m : KubeClientsets Server Discovery.
Variable manager : string.

(** The error of the discovery request plays no part in any operation. *)
Lemma discovery_error_ignored (err : option Error) (s : State Server) :
  resourceClient (with_discovery_error err m) s = resourceClient m s.
Proof. reflexivity. Qed.

(** Every error that is checked ends the operation and is what the
    operation returns. *)
Lemma checked_errors_propagate (s : State Server) op (err : Error) :
  op ∈ [VariantA.resourceKubernetesLabelsRead m manager;
        VariantA.resourceKubernetesLabelsUpdate m manager;
        VariantB.resourceKubernetesLabelsRead m;
        VariantB.resourceKubernetesLabelsUpdate m manager] →
  DynamicClient m = Some err
  ∨ (DynamicClient m = None ∧ DiscoveryClient m = Some err)
  ∨ (DynamicClient m = None ∧ DiscoveryClient m = None
     ∧ ParseGroupVersion m (api_version (data s)) = inl err)
  ∨ (DynamicClient m = None ∧ DiscoveryClient m = None
     ∧ ∃ gv, ParseGroupVersion m (api_version (data s)) = inr gv
             ∧ RESTMapping m (GetAPIGroupResources m).1
                 (WithKind_GroupKind gv (kind (data s))) (gv_Version gv) = inl err) →
  op s = (Err err, s) ∧ diagnostics (op s).1 = Some (FromErr err).
Proof.
  intros Hop Hcase.
  assert (resourceClient m s = (Err err, s)) as H.
  { unfold_ops. destruct s as [d srv tr]. simpl in *.
    destruct Hcase as [H1|[[H1 H2]|[(H1 & H2 & H3)|(H1 & H2 & gv & H3 & H4)]]];
      rewrite H1; simpl; try done; rewrite H2; simpl; try done;
      rewrite H3; simpl; try done. by rewrite H4. }
  assert (op s = (Err err, s)) as ->; [|done].
  repeat (apply elem_of_cons in Hop as [->|Hop]);
    [by apply readA_fails|by apply updateA_fails|by apply readB_fails
    |by apply updateB_fails|by apply elem_of_nil in Hop].
Qed.
End Errors.

(** C5. With a discovery request that fails with [connection refused], no
    operation reports that error: [GetAPIGroupResources] hands it back,
    the code overwrites it unread, and the operation ends with the error
    of the REST mapping instead.  This holds for all eight lifecycle
    functions. *)
Theorem discovery_error_not_propagated :
  let m := APIServer.clients_discovery_failing "connection refused" in
  let s := Sample.state (Sample.resource_data "id" ∅ {[ "a" := "1" ]})
             (Sample.cluster ∅ []) in
  (GetAPIGroupResources m).2 = Some "connection refused"
  ∧ Forall (λ op, diagnostics (op s).1
                  = Some (FromErr "no matches for kind ConfigMap in version v1")
                  ∧ diagnostics (op s).1 ≠ Some (FromErr "connection refused"))
      [VariantA.resourceKubernetesLabelsCreate m "Terraform" Sample.build_id;
       VariantA.resourceKubernetesLabelsRead m "Terraform";
       VariantA.resourceKubernetesLabelsUpdate m "Terraform";
       VariantA.resourceKubernetesLabelsDelete m "Terraform";
       VariantB.resourceKubernetesLabelsCreate m "Terraform" Sample.build_id;
       VariantB.resourceKubernetesLabelsRead m;
       VariantB.resourceKubernetesLabelsUpdate m "Terraform";
       VariantB.resourceKubernetesLabelsDelete m "Terraform"].
Proof.
  intros m s. split; [reflexivity|].
  repeat (constructor; [split; [by vm_compute|by vm_compute]|]).
  constructor.
Qed.

(** ** The diff of variant B *)

Lemma elem_of_diffStringMap prefix (old new : gmap string string) op :
  op ∈ diffStringMap prefix old new ↔
    (∃ k, op = RemoveOperation (prefix +:+ k)
          ∧ is_Some (old !! k) ∧ new !! k = None)
    ∨ (∃ k v o, op = ReplaceOperation (prefix +:+ k) v
                ∧ new !! k = Some v ∧ old !! k = Some o ∧ o ≠ v)
    ∨ (∃ k v, op = AddOperation (prefix +:+ k) v
              ∧ new !! k = Some v ∧ old !! k = None).
Proof.
  unfold diffStringMap. rewrite elem_of_app, !list_elem_of_omap. split.
  - intros [([k o] & Hin & Hop)|([k v] & Hin & Hop)];
      apply elem_of_map_to_list in Hin; simpl in Hop.
    + destruct (new !! k) eqn:Hnew; simplify_eq. left. eauto.
    + destruct (old !! k) as [o|] eqn:Hold; [|simplify_eq; right; right; eauto].
      case_decide; simplify_eq. right; left. eauto 10.
  - intros [(k & -> & [o Hold] & Hnew)|[(k & v & o & -> & Hnew & Hold & Hne)
                                        |(k & v & -> & Hnew & Hold)]].
    + left. exists (k, o). split; [by apply elem_of_map_to_list|].
      simpl. by rewrite Hnew.
    + right. exists (k, v). split; [by apply elem_of_map_to_list|].
      simpl. rewrite Hold. by rewrite decide_False.
    + right. exists (k, v). split; [by apply elem_of_map_to_list|].
      simpl. by rewrite Hold.
Qed.

(** Against the empty map the diff is one remove per key of the old map. *)
Lemma elem_of_diffStringMap_empty prefix (old : gmap string string) op :
  op ∈ diffStringMap prefix old ∅ ↔
  ∃ k, op = RemoveOperation (prefix +:+ k) ∧ is_Some (old !! k).
Proof.
  rewrite elem_of_diffStringMap. split.
  - intros [(k & -> & Hold & _)|[(k & v & o & _ & Hnew & _)|(k & v & _ & Hnew & _)]];
      [by eauto|by rewrite lookup_empty in Hnew..].
  - intros (k & -> & Hold). left. exists k. by rewrite lookup_empty.
Qed.

(** C2. For the old labels [{a:1, b:2}] and the new labels [{b:3, c:4}] the
    diff over the prefix [/metadata/labels/] consists of exactly three
    operations: remove [a], replace [b] by [3], add [c] with [4] (a Go map
    is ranged over in no fixed order, so the list is determined up to
    permutation).  In general the diff holds a remove for each key only the
    old map has, a replace for each key both maps have with different
    values, an add for each key only the new map has, and nothing else; and
    it is this diff, from the prior state to the planned labels, that
    variant B's Update sends as its JSON patch. *)
Theorem diffStringMap_strict :
  diffStringMap "/metadata/labels/" {[ "a" := "1"; "b" := "2" ]}
                                    {[ "b" := "3"; "c" := "4" ]}
  ≡ₚ [RemoveOperation "/metadata/labels/a";
      ReplaceOperation "/metadata/labels/b" "3";
      AddOperation "/metadata/labels/c" "4"]
  ∧
  (∀ prefix (old new : gmap string string) op,
     op ∈ diffStringMap prefix old new ↔
       (∃ k, op = RemoveOperation (prefix +:+ k)
             ∧ is_Some (old !! k) ∧ new !! k = None)
       ∨ (∃ k v o, op = ReplaceOperation (prefix +:+ k) v
                   ∧ new !! k = Some v ∧ old !! k = Some o ∧ o ≠ v)
       ∨ (∃ k v, op = AddOperation (prefix +:+ k) v
                 ∧ new !! k = Some v ∧ old !! k = None))
  ∧
  (∀ Server Discovery (m : KubeClientsets Server Discovery) manager
     (s : State Server),
     Forall (λ req, match req with
                    | PatchRequest _ _ pt body _ =>
                        pt = JSONPatchType ∧
                        body = JSONPatchBody
                          (diffStringMap "/metadata/labels/" (labels_state (data s))
                             (if bool_decide (Id (data s) = "")
                              then ∅ else labels_planned (data s)))
                    | GetRequest _ _ => True
                    end)
       (requests_of (VariantB.resourceKubernetesLabelsUpdate m manager) s)).
Proof.
  split_and!.
  - assert (diffStringMap "/metadata/labels/" {[ "a" := "1"; "b" := "2" ]}
                                              {[ "b" := "3"; "c" := "4" ]}
            = [RemoveOperation "/metadata/labels/a";
               AddOperation "/metadata/labels/c" "4";
               ReplaceOperation "/metadata/labels/b" "3"]) as -> by (by vm_compute).
    apply perm_skip, perm_swap.
  - apply elem_of_diffStringMap.
  - intros Server Discovery m manager s.
    eapply Forall_impl; [apply updateB_patches|]. intros [] Hq; [done|].
    by destruct Hq as (Hpt & _ & Hbody).
Qed.

(** ** JSON patches on the reference server *)

Section JSONPatch.
Import APIServer.

Lemma strip_prefix_app p s : strip_prefix p (p +:+ s) = Some s.
Proof.
  induction p as [|a p IH]; simpl; [by destruct s|].
  by rewrite Ascii.eqb_refl.
Qed.

Lemma label_of_path_label k : label_of_path ("/metadata/labels/" +:+ k) = inr k.
Proof. unfold label_of_path. by rewrite strip_prefix_app. Qed.

Lemma apply_operations_app labels ops1 ops2 :
  apply_operations labels (ops1 ++ ops2) =
  match apply_operations labels ops1 with
  | inl err => inl err
  | inr labels' => apply_operations labels' ops2
  end.
Proof.
  revert labels. induction ops1 as [|op ops1 IH]; intros labels; simpl; [done|].
  by destruct (apply_operation labels op).
Qed.

Lemma apply_operations_leaves k ops labels labels' :
  Forall (leaves k) ops →
  apply_operations labels ops = inr labels' →
  labels' !! k = labels !! k.
Proof.
  intros Hall. revert labels. induction Hall as [|op ops Hop _ IH]; intros labels; simpl.
  - by intros [= ->].
  - destruct (apply_operation labels op) as [err|labels1] eqn:H1; [done|].
    intros H. rewrite (IH _ H). by apply Hop.
Qed.

Lemma leaves_other k k' op :
  k ≠ k' →
  (∃ v, op = AddOperation ("/metadata/labels/" +:+ k') v)
  ∨ op = RemoveOperation ("/metadata/labels/" +:+ k')
  ∨ (∃ v, op = ReplaceOperation ("/metadata/labels/" +:+ k') v) →
  leaves k op.
Proof.
  intros Hne [[v ->]|[->|[v ->]]] labels labels'; unfold apply_operation;
    rewrite label_of_path_label.
  - intros [= <-]. by rewrite lookup_insert_ne.
  - destruct (labels !! k'); [|done]. intros [= <-]. by rewrite lookup_delete_ne.
  - destruct (labels !! k'); [|done]. intros [= <-]. by rewrite lookup_insert_ne.
Qed.

(** The diff only has operations on keys of the old or of the new map. *)
Lemma diffStringMap_leaves (old new : gmap string string) k :
  old !! k = None → new !! k = None →
  Forall (leaves k) (diffStringMap "/metadata/labels/" old new).
Proof.
  intros Hold Hnew. apply Forall_forall. intros op Hop.
  apply elem_of_diffStringMap in Hop
    as [(k' & -> & [o Ho] & _)|[(k' & v & o & -> & Hn & _)|(k' & v & -> & Hn & _)]];
    (apply (leaves_other k k'); [intros ->; congruence|]); eauto.
Qed.
End JSONPatch.

(** ** The diff, applied *)

Section DiffApplied.
Import APIServer.
#[local] Arguments String.append : simpl never.

Lemma apply_remove labels k :
  apply_operation labels (RemoveOperation ("/metadata/labels/" +:+ k)) =
  match labels !! k with
  | Some _ => inr (delete k labels)
  | None => inl ("remove operation does not apply: missing key " +:+ k)
  end.
Proof. unfold apply_operation. by rewrite label_of_path_label. Qed.

Lemma apply_replace labels k v :
  apply_operation labels (ReplaceOperation ("/metadata/labels/" +:+ k) v) =
  match labels !! k with
  | Some _ => inr (<[k := v]> labels)
  | None => inl ("replace operation does not apply: missing key " +:+ k)
  end.
Proof. unfold apply_operation. by rewrite label_of_path_label. Qed.

Lemma apply_add labels k v :
  apply_operation labels (AddOperation ("/metadata/labels/" +:+ k) v) =
  inr (<[k := v]> labels).
Proof. unfold apply_operation. by rewrite label_of_path_label. Qed.

Lemma apply_operations_cons labels op ops :
  apply_operations labels (op :: ops) =
  match apply_operation labels op with
  | inl err => inl err
  | inr labels' => apply_operations labels' ops
  end.
Proof. reflexivity. Qed.

(** The removes of a diff, applied to labels that have the keys. *)
Lemma apply_removes (new : gmap string string) (l : list (string * string)) :
  ∀ labels,
    NoDup l.*1 →
    (∀ kv, kv ∈ l → is_Some (labels !! kv.1)) →
    ∃ labels',
      apply_operations labels
        (omap (λ kv : string * string,
                 match new !! kv.1 with
                 | Some _ => None
                 | None => Some (RemoveOperation ("/metadata/labels/" +:+ kv.1))
                 end) l) = inr labels'
      ∧ ∀ k, labels' !! k =
             if decide (k ∈ l.*1 ∧ new !! k = None) then None else labels !! k.
Proof.
  induction l as [|[k0 v0] l IH]; intros labels Hnd Hin.
  - exists labels. split; [done|]. intros k.
    case_decide as H; [|done]. destruct H as [H _]. by apply elem_of_nil in H.
  - apply NoDup_cons in Hnd as [Hk0 Hnd]. simpl.
    destruct (new !! k0) eqn:Hnew.
    + destruct (IH labels Hnd) as (labels' & Happ & Hl).
      { intros kv Hkv. apply Hin. by right. }
      exists labels'. split; [done|]. intros k. rewrite Hl.
      case_decide as Ha; case_decide as Hb; try done.
      * destruct Hb. split; [right|]; tauto.
      * destruct Hb as [Hk Hn]. apply elem_of_cons in Hk as [->|Hk]; [congruence|tauto].
    + rewrite apply_operations_cons, apply_remove.
      destruct (Hin (k0, v0)) as [x Hx]; [by left|]. simpl in Hx. rewrite Hx.
      destruct (IH (delete k0 labels) Hnd) as (labels' & Happ & Hl).
      { intros kv Hkv. rewrite lookup_delete_ne.
        - apply Hin. by right.
        - intros ->. apply Hk0. apply list_elem_of_fmap. by exists kv. }
      exists labels'. split; [done|]. intros k. rewrite Hl.
      destruct (decide (k = k0)) as [->|Hne].
      * rewrite lookup_delete_eq.
        case_decide as Ha; case_decide as Hb; try done;
          destruct Hb; (split; [by left|done]).
      * rewrite lookup_delete_ne by done.
        case_decide as Ha; case_decide as Hb; try done.
        -- destruct Hb. split; [right|]; tauto.
        -- destruct Hb as [Hk Hn]. apply elem_of_cons in Hk as [->|Hk]; tauto.
Qed.

(** The replaces and adds of a diff, applied to labels that have the keys
    to be replaced. *)
Lemma apply_upserts (old : gmap string string) (l : list (string * string)) :
  ∀ labels,
    NoDup l.*1 →
    (∀ kv, kv ∈ l → is_Some (old !! kv.1) → is_Some (labels !! kv.1)) →
    ∃ labels',
      apply_operations labels
        (omap (λ kv : string * string,
                 match old !! kv.1 with
                 | Some oldValue =>
                     if decide (oldValue = kv.2) then None
                     else Some (ReplaceOperation ("/metadata/labels/" +:+ kv.1) kv.2)
                 | None => Some (AddOperation ("/metadata/labels/" +:+ kv.1) kv.2)
                 end) l) = inr labels'
      ∧ ∀ k, labels' !! k =
             match (list_to_map l : gmap string string) !! k with
             | Some v => if decide (old !! k = Some v) then labels !! k else Some v
             | None => labels !! k
             end.
Proof.
  induction l as [|[k0 v0] l IH]; intros labels Hnd Hin.
  - exists labels. split; [done|]. intros k. simpl. by rewrite lookup_empty.
  - apply NoDup_cons in Hnd as [Hk0 Hnd].
    assert ((list_to_map l : gmap string string) !! k0 = None) as Hl0.
    { by apply not_elem_of_list_to_map_1. }
    assert (∀ labels1,
              (∀ k, k ≠ k0 → labels1 !! k = labels !! k) →
              (is_Some (labels !! k0) → is_Some (labels1 !! k0)) →
              ∃ labels', apply_operations labels1 (omap (λ kv : string * string,
                 match old !! kv.1 with
                 | Some oldValue =>
                     if decide (oldValue = kv.2) then None
                     else Some (ReplaceOperation ("/metadata/labels/" +:+ kv.1) kv.2)
                 | None => Some (AddOperation ("/metadata/labels/" +:+ kv.1) kv.2)
                 end) l) = inr labels'
                ∧ labels' !! k0 = labels1 !! k0
                ∧ ∀ k, k ≠ k0 → labels' !! k =
                    match (list_to_map l : gmap string string) !! k with
                    | Some v => if decide (old !! k = Some v) then labels !! k else Some v
                    | None => labels !! k
                    end) as Hrest.
    { intros labels1 Hother Hself.
      destruct (IH labels1 Hnd) as (labels' & Happ & Hl).
      { intros kv Hkv Hold.
        destruct (decide (kv.1 = k0)) as [Heq|Hne].
        - destruct Hk0. apply list_elem_of_fmap. by exists kv.
        - rewrite Hother by done. apply Hin; [by right|done]. }
      exists labels'. split; [done|]. split.
      - by rewrite Hl, Hl0.
      - intros k Hne. rewrite Hl. by rewrite Hother. }
    simpl. destruct (old !! k0) as [o|] eqn:Hold; [case_decide as Ho|].
    + subst o. destruct (Hrest labels) as (labels' & Happ & Hk & Hl); [done..|].
      exists labels'. split; [done|]. intros k.
      destruct (decide (k = k0)) as [->|Hne].
      * rewrite lookup_insert_eq. by rewrite decide_True.
      * rewrite lookup_insert_ne by done. by apply Hl.
    + rewrite apply_operations_cons, apply_replace.
      destruct (Hin (k0, v0)) as [x Hx]; [by left|simpl; by rewrite Hold|].
      simpl in Hx. rewrite Hx.
      destruct (Hrest (<[k0 := v0]> labels)) as (labels' & Happ & Hk & Hl).
      { intros k Hne. by rewrite lookup_insert_ne. }
      { intros _. by rewrite lookup_insert_eq. }
      exists labels'. split; [done|]. intros k.
      destruct (decide (k = k0)) as [->|Hne].
      * rewrite Hk, !lookup_insert_eq. rewrite decide_False; [done|congruence].
      * rewrite lookup_insert_ne by done. by apply Hl.
    + rewrite apply_operations_cons, apply_add.
      destruct (Hrest (<[k0 := v0]> labels)) as (labels' & Happ & Hk & Hl).
      { intros k Hne. by rewrite lookup_insert_ne. }
      { intros _. by rewrite lookup_insert_eq. }
      exists labels'. split; [done|]. intros k.
      destruct (decide (k = k0)) as [->|Hne].
      * rewrite Hk, !lookup_insert_eq. rewrite decide_False; [done|congruence].
      * rewrite lookup_insert_ne by done. by apply Hl.
Qed.

(** Applied to labels that hold the old ones and nothing beyond the old
    and the new ones, the diff yields the new labels. *)
Lemma apply_diffStringMap (old new labels : gmap string string) :
  (∀ k v, old !! k = Some v → labels !! k = Some v) →
  (∀ k, is_Some (labels !! k) → is_Some (old !! k) ∨ is_Some (new !! k)) →
  apply_operations labels (diffStringMap "/metadata/labels/" old new) = inr new.
Proof.
  intros Hsync Hmanaged.
  unfold diffStringMap. rewrite apply_operations_app.
  destruct (apply_removes new (map_to_list old) labels) as (labels1 & -> & H1).
  { apply NoDup_fst_map_to_list. }
  { intros [k v] Hkv. apply elem_of_map_to_list in Hkv. simpl.
    rewrite (Hsync k v Hkv). eauto. }
  destruct (apply_upserts old (map_to_list new) labels1) as (labels2 & -> & H2).
  { apply NoDup_fst_map_to_list. }
  { intros [k v] Hkv [o Hold]. apply elem_of_map_to_list in Hkv. simpl in *.
    rewrite H1. rewrite decide_False by (intros [_ ?]; congruence).
    rewrite (Hsync k o Hold). eauto. }
  f_equal. apply map_eq. intros k. rewrite H2, list_to_map_to_list.
  destruct (new !! k) as [v|] eqn:Hnew.
  - case_decide as Hold; [|done]. rewrite H1.
    rewrite decide_False by (intros [_ ?]; congruence).
    by apply Hsync.
  - rewrite H1. case_decide as Hk; [done|].
    destruct (labels !! k) as [x|] eqn:Hx; [|done].
    destruct (Hmanaged k) as [[o Hold]|[? ?]]; [by rewrite Hx|..|congruence].
    destruct Hk. split; [|done].
    apply list_elem_of_fmap. exists (k, o). split; [done|].
    by apply elem_of_map_to_list.
Qed.
End DiffApplied.

(** ** Server-side apply on the reference server *)

Section ServerSideApply.
Import APIServer.

Lemma disown_Manager taken e : Manager (disown taken e) = Manager e.
Proof. unfold disown. by repeat case_match. Qed.

(** Apply goes through when nothing conflicts or when it is forced. *)
Lemma server_side_apply_succeeds manager force applied obj :
  conflicts manager obj applied = ∅ ∨ force = true →
  ∃ obj', server_side_apply manager force applied obj = inr obj'.
Proof.
  intros H. unfold server_side_apply.
  destruct (bool_decide (conflicts manager obj applied ≠ ∅) && negb force) eqn:Hc;
    [|by eauto].
  apply andb_true_iff in Hc as [Hc Hf]. apply bool_decide_eq_true in Hc.
  destruct H as [H| ->]; [done|done].
Qed.

(** A label that is not applied and that the manager does not own is not
    touched. *)
Lemma server_side_apply_other manager force applied obj obj' k :
  server_side_apply manager force applied obj = inr obj' →
  applied !! k = None →
  owned_by manager (GetManagedFields obj) k = false →
  GetLabels obj' !! k = GetLabels obj !! k.
Proof.
  unfold server_side_apply. case_match; [done|]. intros [= <-] Hk Hown. simpl.
  rewrite lookup_union_r by done.
  apply option_eq; intros v. rewrite map_lookup_filter_Some; simpl.
  split; [by intros [? _]|]. intros Hv. split; [done|].
  intros [Ho _]. congruence.
Qed.

(** The applied labels are on the object afterwards. *)
Lemma server_side_apply_applied manager force applied obj obj' k v :
  server_side_apply manager force applied obj = inr obj' →
  applied !! k = Some v →
  GetLabels obj' !! k = Some v.
Proof.
  unfold server_side_apply. case_match; [done|]. intros [= <-] Hk. simpl.
  by apply lookup_union_Some_l.
Qed.

(** Afterwards the manager is recorded as owning exactly the applied
    labels, in a form [getManagedLabels] reads without trouble. *)
Lemma server_side_apply_managed manager force applied obj obj' :
  server_side_apply manager force applied obj = inr obj' →
  ∃ managedLabels,
    getManagedLabels (GetManagedFields obj') manager = Ok managedLabels
    ∧ ∀ k, is_Some (managedLabels !! ("f:" +:+ k)) ↔ is_Some (applied !! k).
Proof.
  unfold server_side_apply. case_match; [done|]. intros [= <-]. simpl.
  unfold getManagedLabels. rewrite getManagedLabels_from_app.
  rewrite getManagedLabels_from_others.
  2:{ apply Forall_fmap, Forall_forall. intros e He.
      apply list_elem_of_filter in He as [He _]. simpl. by rewrite disown_Manager. }
  destruct (decide (applied = ∅)) as [->|Hne];
    [rewrite bool_decide_true by done|rewrite bool_decide_false by done].
  - exists ∅. split; [reflexivity|]. intros k.
    rewrite !lookup_empty. split; by intros [? ?].
  - eexists. split.
    + simpl. rewrite bool_decide_false by (by intros ?). simpl.
      rewrite lookup_singleton_eq. by rewrite lookup_singleton_eq.
    + intros k. rewrite (lookup_kmap (λ k : string, "f:" +:+ k)).
      rewrite lookup_fmap. apply fmap_is_Some.
Qed.
End ServerSideApply.

(** ** Update, end to end on the reference server *)

Section EndToEnd.
Import APIServer.
Variable agr : Discovery.
Variable manager : string.

Lemma clients_namespace_matches (s : State Server) r name namespace namespaced :
  resourceClient (clients agr) s = (Ok (r, name, namespace, namespaced), s) →
  (if namespaced then Some namespace else None) = ri_namespace r.
Proof.
  intros H. apply resourceClient_ok in H
    as (_ & gv & mapping & _ & _ & _ & _ & _ & _ & _ & ->).
  by destruct namespaced.
Qed.

(** Variant A: once applied, the configured labels are what Read stores. *)
Lemma roundtrip_A (s : State Server) r name namespace namespaced obj :
  resourceClient (clients agr) s = (Ok (r, name, namespace, namespaced), s) →
  server s !! object_key r name = Some obj →
  Id (data s) ≠ "" →
  conflicts manager obj (Get_labels (data s)) = ∅ ∨ force (data s) = true →
  (VariantA.resourceKubernetesLabelsUpdate (clients agr) manager s).1 = Ok ()
  ∧ Get_labels (data (VariantA.resourceKubernetesLabelsUpdate (clients agr) manager s).2)
    = Get_labels (data s).
Proof.
  intros Hr Hobj Hid Hforce.
  rewrite (updateA_runs _ manager s r name namespace namespaced Hr).
  pose proof (clients_namespace_matches s r name namespace namespaced Hr) as Hns.
  simpl. unfold patch. rewrite Hobj. simpl.
  rewrite bool_decide_true by (split; [done|by right]).
  unfold patch_labels_A. rewrite bool_decide_false by done.
  destruct (server_side_apply_succeeds manager (force (data s))
              (Get_labels (data s)) obj Hforce) as [obj' Happly].
  rewrite Happly.
  destruct (server_side_apply_managed _ _ _ _ _ Happly) as (ml & Hml & Hown).
  erewrite readA_runs; [|by apply (resourceClient_data _ s)].
  simpl. unfold get. simpl. rewrite lookup_insert_eq, Hml. simpl.
  split; [done|]. unfold Get_labels at 1. simpl.
  apply map_eq. intros k. rewrite lookup_stored_by_read_A.
  destruct (Get_labels (data s) !! k) as [v|] eqn:Hk.
  - rewrite decide_True by (right; eauto).
    by apply (server_side_apply_applied _ _ _ _ _ _ _ Happly).
  - rewrite decide_False; [done|].
    intros [Hm|[? ?]]; [|done]. apply Hown in Hm. rewrite Hk in Hm.
    by destruct Hm.
Qed.

(** Variant B: when the remote object holds the labels of the prior state
    and no label beyond the stored and the planned ones, the patch applies
    and the planned labels are what Read stores. *)
Lemma roundtrip_B (s : State Server) r name namespace namespaced obj :
  resourceClient (clients agr) s = (Ok (r, name, namespace, namespaced), s) →
  server s !! object_key r name = Some obj →
  Id (data s) ≠ "" →
  (∀ k v, labels_state (data s) !! k = Some v → GetLabels obj !! k = Some v) →
  (∀ k, is_Some (GetLabels obj !! k) →
        is_Some (labels_state (data s) !! k) ∨ is_Some (labels_planned (data s) !! k)) →
  (VariantB.resourceKubernetesLabelsUpdate (clients agr) manager s).1 = Ok ()
  ∧ Get_labels (data (VariantB.resourceKubernetesLabelsUpdate (clients agr) manager s).2)
    = labels_planned (data s).
Proof.
  intros Hr Hobj Hid Hsync Hmanaged.
  rewrite (updateB_runs _ manager s r name namespace namespaced Hr).
  simpl. unfold patch. rewrite Hobj. simpl.
  unfold patch_labels_B. rewrite bool_decide_false by done.
  rewrite apply_diffStringMap by done.
  erewrite readB_runs; [|by apply (resourceClient_data _ s)].
  simpl. unfold get. simpl. by rewrite lookup_insert_eq.
Qed.

(** C7. Writing the labels and reading them back: after Update, which ends
    by running Read, the stored label map is the desired one ([{a:1, b:2}]
    or any other).  For variant A this needs the apply to go through (no
    conflict with another manager, or force); labels on the object that
    are neither desired nor owned are filtered out by Read.  For variant B
    it needs the remote object to have no unmanaged label, that is, none
    beyond the labels of the prior state and the desired ones, and to hold
    the labels of the prior state as they were stored. *)
Theorem update_then_read_roundtrip (s : State Server) r name namespace namespaced
    (obj : Unstructured) (desired : gmap string string) :
  resourceClient (clients agr) s = (Ok (r, name, namespace, namespaced), s) →
  server s !! object_key r name = Some obj →
  Id (data s) ≠ "" →
  (Get_labels (data s) = desired →
   conflicts manager obj desired = ∅ ∨ force (data s) = true →
   let out := VariantA.resourceKubernetesLabelsUpdate (clients agr) manager s in
   out.1 = Ok () ∧ Get_labels (data out.2) = desired)
  ∧
  (labels_planned (data s) = desired →
   (∀ k, is_Some (GetLabels obj !! k) →
         is_Some (labels_state (data s) !! k) ∨ is_Some (desired !! k)) →
   (∀ k v, labels_state (data s) !! k = Some v → GetLabels obj !! k = Some v) →
   let out := VariantB.resourceKubernetesLabelsUpdate (clients agr) manager s in
   out.1 = Ok () ∧ Get_labels (data out.2) = desired).
Proof.
  intros Hr Hobj Hid. split.
  - intros <- Hforce. by apply (roundtrip_A s r name namespace namespaced obj).
  - intros <- Hmanaged Hsync.
    by apply (roundtrip_B s r name namespace namespaced obj).
Qed.
End EndToEnd.

Lemma update_then_read_roundtrip_witness :
  let m := APIServer.clients Sample.discovery in
  let s := Sample.state
             (Sample.resource_data "id" {[ "old" := "x" ]} {[ "a" := "1"; "b" := "2" ]})
             (Sample.cluster {[ "old" := "x" ]} [Sample.labels_entry "Terraform" ["old"]]) in
  let outA := VariantA.resourceKubernetesLabelsUpdate m "Terraform" s in
  let outB := VariantB.resourceKubernetesLabelsUpdate m "Terraform" s in
  (outA.1 = Ok () ∧ Get_labels (data outA.2) = {[ "a" := "1"; "b" := "2" ]})
  ∧ (outB.1 = Ok () ∧ Get_labels (data outB.2) = {[ "a" := "1"; "b" := "2" ]}).
Proof.
  intros m s.
  destruct (update_then_read_roundtrip Sample.discovery "Terraform" s
              Sample.my_config "my-config" "default" true _
              {[ "a" := "1"; "b" := "2" ]} eq_refl eq_refl) as [HA HB].
  { by vm_compute. }
  split.
  - apply HA; [reflexivity|]. left. by vm_compute.
  - apply HB; [reflexivity| |].
    + intros k Hk. by left.
    + intros k v Hk. exact Hk.
Defined.

(** ** Labels the operations leave alone *)

Section Untouched.
Import APIServer.
Variable agr : Discovery.
Variable manager : string.

(** Variant A: Update leaves a label alone when it is not among the labels
    of the patch and the manager does not own it. *)
Lemma updateA_other (s : State Server) key obj k :
  server s !! key = Some obj →
  owned_by manager (GetManagedFields obj) k = false →
  patch_labels_A (data s) !! k = None →
  ∃ obj', server (VariantA.resourceKubernetesLabelsUpdate (clients agr) manager s).2
            !! key = Some obj'
          ∧ GetLabels obj' !! k = GetLabels obj !! k.
Proof.
  intros Hobj Hown Hk.
  destruct (resourceClient_cases (clients agr) s)
    as [[[[[r name] ns] nsd] H]|[err H]].
  2:{ rewrite (updateA_fails _ manager s err H). eauto. }
  rewrite (updateA_runs _ manager s r name ns nsd H). simpl.
  destruct (patch r name ApplyPatchType _ _ (server s)) as [err|srv] eqn:Hp;
    [simpl; eauto|].
  rewrite readA_server. simpl.
  unfold patch in Hp. destruct (server s !! object_key r name) as [tobj|] eqn:Ht; [|done].
  simpl in Hp. case_match; [|done].
  destruct (server_side_apply _ _ _ tobj) as [err|obj'] eqn:Happly; [done|].
  injection Hp as <-.
  destruct (decide (key = object_key r name)) as [->|Hne].
  - rewrite lookup_insert_eq. exists obj'. split; [done|]. simplify_eq.
    by apply (server_side_apply_other _ _ _ _ _ _ Happly).
  - rewrite lookup_insert_ne by done. eauto.
Qed.

(** Variant B: Update leaves a label alone when neither the prior state nor
    the labels of the patch have its key. *)
Lemma updateB_other (s : State Server) key obj k :
  server s !! key = Some obj →
  labels_state (data s) !! k = None →
  patch_labels_B (data s) !! k = None →
  ∃ obj', server (VariantB.resourceKubernetesLabelsUpdate (clients agr) manager s).2
            !! key = Some obj'
          ∧ GetLabels obj' !! k = GetLabels obj !! k.
Proof.
  intros Hobj Hold Hk.
  destruct (resourceClient_cases (clients agr) s)
    as [[[[[r name] ns] nsd] H]|[err H]].
  2:{ rewrite (updateB_fails _ manager s err H). eauto. }
  rewrite (updateB_runs _ manager s r name ns nsd H). simpl.
  destruct (patch r name JSONPatchType _ _ (server s)) as [err|srv] eqn:Hp;
    [simpl; eauto|].
  rewrite readB_server. simpl.
  unfold patch in Hp. destruct (server s !! object_key r name) as [tobj|] eqn:Ht; [|done].
  simpl in Hp.
  destruct (apply_operations (GetLabels tobj) _) as [err|labels'] eqn:Happly; [done|].
  injection Hp as <-.
  destruct (decide (key = object_key r name)) as [->|Hne].
  - rewrite lookup_insert_eq. eexists. split; [done|]. simplify_eq. simpl.
    eapply apply_operations_leaves; [|exact Happly].
    by apply diffStringMap_leaves.
  - rewrite lookup_insert_ne by done. eauto.
Qed.

(** C1, as amended. Delete sends one patch built from the empty label map:
    an apply patch without labels under the fixed field manager (variant
    A), or one remove for each key of the prior state (variant B).  On
    every object of the server, Delete leaves alone each label that the
    manager does not own (variant A) or that the prior state does not hold
    (variant B), and so do Read, Update and Create when in addition the
    label is not among the configured ones.  What Delete removes is thus
    confined to the labels the manager owns (variant A) and to the labels
    recorded in the prior state (variant B). *)
Theorem operations_leave_other_labels
    (build : ObjectMeta → string → string → string)
    (s : State Server) key (obj : Unstructured) (k : string) :
  server s !! key = Some obj →
  let unchanged (out : Result () * State Server) :=
    ∃ obj', server out.2 !! key = Some obj'
            ∧ GetLabels obj' !! k = GetLabels obj !! k in
  (Forall (λ req, match req with
                  | PatchRequest _ _ pt body opts =>
                      pt = ApplyPatchType ∧ FieldManager opts = manager ∧
                      ∃ o, body = ApplyBody o ∧ po_labels o = ∅
                  | GetRequest _ _ => True
                  end)
     (requests_of (VariantA.resourceKubernetesLabelsDelete (clients agr) manager) s)
   ∧
   Forall (λ req, match req with
                  | PatchRequest _ _ pt body opts =>
                      pt = JSONPatchType ∧
                      ∃ ops, body = JSONPatchBody ops ∧
                             ∀ op, op ∈ ops ↔
                                   ∃ k', op = RemoveOperation ("/metadata/labels/" +:+ k')
                                         ∧ is_Some (labels_state (data s) !! k')
                  | GetRequest _ _ => True
                  end)
     (requests_of (VariantB.resourceKubernetesLabelsDelete (clients agr) manager) s))
  ∧
  (owned_by manager (GetManagedFields obj) k = false →
   unchanged (VariantA.resourceKubernetesLabelsDelete (clients agr) manager s)
   ∧ (Get_labels (data s) !! k = None →
      unchanged (VariantA.resourceKubernetesLabelsRead (clients agr) manager s)
      ∧ unchanged (VariantA.resourceKubernetesLabelsUpdate (clients agr) manager s)
      ∧ unchanged (VariantA.resourceKubernetesLabelsCreate (clients agr) manager build s)))
  ∧
  (labels_state (data s) !! k = None →
   unchanged (VariantB.resourceKubernetesLabelsDelete (clients agr) manager s)
   ∧ (labels_planned (data s) !! k = None →
      unchanged (VariantB.resourceKubernetesLabelsRead (clients agr) s)
      ∧ unchanged (VariantB.resourceKubernetesLabelsUpdate (clients agr) manager s)
      ∧ unchanged (VariantB.resourceKubernetesLabelsCreate (clients agr) manager build s))).
Proof.
  intros Hobj unchanged. subst unchanged. simpl. split_and!.
  - pose proof (updateA_patches (clients agr) manager (with_data (SetId "") s)) as H.
    unfold requests_of in *. simpl in H.
    eapply Forall_impl; [exact H|]. intros [] Hq; [done|].
    destruct Hq as (Hpt & Hm & o & Hbody & Hl). split_and!; [done..|]. by exists o.
  - pose proof (updateB_patches (clients agr) manager (with_data (SetId "") s)) as H.
    unfold requests_of in *. simpl in H.
    eapply Forall_impl; [exact H|]. intros [] Hq; [done|].
    destruct Hq as (Hpt & _ & Hbody). split; [done|].
    eexists. split; [exact Hbody|]. intros op. apply elem_of_diffStringMap_empty.
  - intros Hown. split.
    + rewrite deleteA_runs. by apply updateA_other.
    + intros Hk. split_and!.
      * rewrite readA_server. eauto.
      * apply updateA_other; [done..|]. unfold patch_labels_A. by case_bool_decide.
      * rewrite createA_runs. apply updateA_other; [done..|].
        unfold patch_labels_A. by case_bool_decide.
  - intros Hold. split.
    + rewrite deleteB_runs. by apply updateB_other.
    + intros Hk. split_and!.
      * rewrite readB_server. eauto.
      * apply updateB_other; [done..|]. unfold patch_labels_B. by case_bool_decide.
      * rewrite createB_runs. apply updateB_other; [done..|].
        unfold patch_labels_B. by case_bool_decide.
Qed.
End Untouched.

Lemma operations_leave_other_labels_witness :
  let m := APIServer.clients Sample.discovery in
  let s := Sample.state (Sample.resource_data "id" {[ "a" := "1" ]} {[ "a" := "1" ]})
             (Sample.cluster {[ "a" := "1"; "env" := "prod" ]}
                [Sample.labels_entry "Terraform" ["a"]]) in
  let key := APIServer.object_key Sample.my_config "my-config" in
  (∃ obj', server (VariantA.resourceKubernetesLabelsDelete m "Terraform" s).2 !! key
           = Some obj'
           ∧ GetLabels obj' !! "env" = Some "prod")
  ∧
  (∃ obj', server (VariantB.resourceKubernetesLabelsDelete m "Terraform" s).2 !! key
           = Some obj'
           ∧ GetLabels obj' !! "env" = Some "prod").
Proof.
  intros m s key.
  destruct (operations_leave_other_labels Sample.discovery "Terraform"
              Sample.build_id s key _ "env" eq_refl) as (_ & HA & HB).
  split.
  - exact (proj1 (HA eq_refl)).
  - exact (proj1 (HB eq_refl)).
Defined.

(** C1 as stated fails for variant B.  The object carries [env=prod], which
    the tool neither created nor is asked to manage.  Create adds [a=1] and
    reads back: the stored labels are the raw remote ones, [env] included.
    Delete then diffs that stored map against the empty map and removes
    [env] along with [a]. *)
Lemma delete_B_removes_label_it_did_not_create :
  ¬ (∀ (s0 : State (gmap APIServer.ObjectKey Unstructured))
       (key : APIServer.ObjectKey) (obj : Unstructured) (k v : string),
       let m := APIServer.clients Sample.discovery in
       server s0 !! key = Some obj →
       GetLabels obj !! k = Some v →
       labels_state (data s0) !! k = None →
       labels_planned (data s0) !! k = None →
       let s1 := (VariantB.resourceKubernetesLabelsCreate m "Terraform"
                    Sample.build_id s0).2 in
       let s2 := with_data (λ d, next_operation (Get_labels d) d) s1 in
       let s3 := (VariantB.resourceKubernetesLabelsDelete m "Terraform" s2).2 in
       ∃ obj', server s3 !! key = Some obj' ∧ GetLabels obj' !! k = Some v).
Proof.
  intros H.
  destruct (H (Sample.state (Sample.resource_data "" ∅ {[ "a" := "1" ]})
                 (Sample.cluster {[ "env" := "prod" ]} []))
              (APIServer.object_key Sample.my_config "my-config")
              {| GetLabels := {[ "env" := "prod" ]}; GetManagedFields := [] |}
              "env" "prod") as (obj' & Hobj & Hk); [by vm_compute..|].
  vm_compute in Hobj. injection Hobj as <-.
  vm_compute in Hk. discriminate Hk.
Qed.

(** ** Sample runs *)

(** Delete in both variants, on [my-config] with the stored label [a=1]:
    one patch built from the empty label map, then the Get of Read. *)
Lemma delete_sample_requests :
  let m := APIServer.clients Sample.discovery in
  let s := Sample.state (Sample.resource_data "id" {[ "a" := "1" ]} {[ "a" := "1" ]})
             (Sample.cluster {[ "a" := "1" ]} [Sample.labels_entry "Terraform" ["a"]]) in
  requests_of (VariantA.resourceKubernetesLabelsDelete m "Terraform") s
  = [PatchRequest Sample.my_config "my-config" ApplyPatchType
       (ApplyBody {| po_apiVersion := "v1"; po_kind := "ConfigMap";
                     po_name := "my-config"; po_labels := ∅;
                     po_namespace := Some "default" |})
       {| FieldManager := "Terraform"; Force := Some false |};
     GetRequest Sample.my_config "my-config"]
  ∧
  requests_of (VariantB.resourceKubernetesLabelsDelete m "Terraform") s
  = [PatchRequest Sample.my_config "my-config" JSONPatchType
       (JSONPatchBody [RemoveOperation "/metadata/labels/a"])
       {| FieldManager := "Terraform"; Force := None |};
     GetRequest Sample.my_config "my-config"].
Proof. split; by vm_compute. Qed.

(** The scenario behind the correction of C1, step by step. *)
Lemma create_then_delete_B_sample :
  let m := APIServer.clients Sample.discovery in
  let key := APIServer.object_key Sample.my_config "my-config" in
  let s0 := Sample.state (Sample.resource_data "" ∅ {[ "a" := "1" ]})
              (Sample.cluster {[ "env" := "prod" ]} []) in
  let out1 := VariantB.resourceKubernetesLabelsCreate m "Terraform" Sample.build_id s0 in
  let s2 := with_data (λ d, next_operation (Get_labels d) d) out1.2 in
  let out3 := VariantB.resourceKubernetesLabelsDelete m "Terraform" s2 in
  out1.1 = Ok ()
  ∧ GetLabels <$> server out1.2 !! key = Some {[ "a" := "1"; "env" := "prod" ]}
  ∧ labels_state (data s2) = {[ "a" := "1"; "env" := "prod" ]}
  ∧ out3.1 = Ok ()
  ∧ GetLabels <$> server out3.2 !! key = Some ∅.
Proof. by vm_compute. Qed.

(** * Further properties *)

(** ** [getManagedLabels], entry by entry *)

Lemma getManagedLabels_from_filter labels fields manager :
  getManagedLabels_from labels (filter (λ e, Manager e = manager) fields) manager
  = getManagedLabels_from labels fields manager.
Proof.
  revert labels. induction fields as [|e fields IH]; intros labels; [done|].
  rewrite filter_cons. destruct (decide (Manager e = manager)) as [He|He].
  - simpl. rewrite bool_decide_false by (by intros ?).
    destruct (FieldsV1 e) as [f|]; [|done].
    destruct (json_Unmarshal (Raw f)) as [err|mm]; [done|].
    destruct (mm !! "f:metadata") as [[| | | | |metadata]|]; try done.
    destruct (metadata !! "f:labels") as [[| | | | |l]|]; apply IH.
  - simpl. rewrite bool_decide_true by done. apply IH.
Qed.

(** X1. The result of [getManagedLabels] depends on the entries of the
    given manager only: the entries of other managers can be dropped
    without changing it, and when the manager has no entry the result is
    the nil map, without error. *)
Theorem getManagedLabels_only_own_entries
    (fields : list ManagedFieldsEntry) (manager : string) :
  getManagedLabels fields manager
  = getManagedLabels (filter (λ e, Manager e = manager) fields) manager
  ∧ (Forall (λ e, Manager e ≠ manager) fields →
     getManagedLabels fields manager = Ok ∅).
Proof.
  split.
  - unfold getManagedLabels. by rewrite getManagedLabels_from_filter.
  - apply getManagedLabels_from_others.
Qed.

Lemma getManagedLabels_only_own_entries_witness :
  getManagedLabels [Sample.labels_entry "kubectl" ["c"];
                    Cases.fieldless_entry "helm"] "Terraform" = Ok ∅.
Proof.
  apply (proj2 (getManagedLabels_only_own_entries
                  [Sample.labels_entry "kubectl" ["c"];
                   Cases.fieldless_entry "helm"] "Terraform")).
  repeat constructor; by vm_compute.
Defined.

Lemma getManagedLabels_from_ok_iff labels fields manager :
  (∃ l, getManagedLabels_from labels fields manager = Ok l) ↔
  Forall (λ e, Manager e = manager →
               ∃ f mm metadata,
                 FieldsV1 e = Some f ∧ json_Unmarshal (Raw f) = inr mm
                 ∧ mm !! "f:metadata" = Some (JObject metadata)) fields.
Proof.
  revert labels. induction fields as [|e fields IH]; intros labels.
  - simpl. split; [by constructor|by eauto].
  - rewrite Forall_cons. simpl.
    destruct (decide (Manager e = manager)) as [He|He].
    + rewrite bool_decide_false by (by intros ?).
      destruct (FieldsV1 e) as [f|] eqn:Hf.
      2:{ split; [by intros [? ?]|]. intros [Hwf _].
          by destruct (Hwf He) as (? & ? & ? & ? & _). }
      destruct (json_Unmarshal (Raw f)) as [err|mm] eqn:Hmm.
      { split; [by intros [? ?]|]. intros [Hwf _].
        destruct (Hwf He) as (? & ? & ? & ? & ? & _). congruence. }
      destruct (mm !! "f:metadata") as [md|] eqn:Hmd.
      2:{ split; [by intros [? ?]|]. intros [Hwf _].
          destruct (Hwf He) as (? & ? & ? & ? & ? & ?). congruence. }
      destruct md as [| | | | |metadata];
        try (split; [by intros [? ?]|]; intros [Hwf _];
             destruct (Hwf He) as (? & ? & ? & ? & ? & ?); congruence).
      assert (∀ l', (∃ l, getManagedLabels_from l' fields manager = Ok l) ↔
                    (Manager e = manager →
                     ∃ f0 mm0 metadata0, Some f = Some f0
                       ∧ json_Unmarshal (Raw f0) = inr mm0
                       ∧ mm0 !! "f:metadata" = Some (JObject metadata0))
                    ∧ Forall (λ e, Manager e = manager →
                         ∃ f mm metadata,
                           FieldsV1 e = Some f ∧ json_Unmarshal (Raw f) = inr mm
                           ∧ mm !! "f:metadata" = Some (JObject metadata)) fields) as Hstep.
      { intros l'. rewrite IH. split; [|by intros [_ ?]].
        intros Hall. split; [|done]. intros _. by exists f, mm, metadata. }
      destruct (metadata !! "f:labels") as [[| | | | |l]|]; apply Hstep.
    + rewrite bool_decide_true by done. rewrite IH.
      split; [|by intros [_ ?]]. intros Hall. split; [done|done].
Qed.

(** X2. [getManagedLabels] returns a label map exactly when every entry of
    the manager has fields that decode without error and hold an
    [f:metadata] object; as soon as one entry of the manager falls short
    of that, the call ends in an error or a panic. *)
Theorem getManagedLabels_ok_iff_well_formed
    (fields : list ManagedFieldsEntry) (manager : string) :
  (∃ l, getManagedLabels fields manager = Ok l) ↔
  Forall (λ e, Manager e = manager →
               ∃ f mm metadata,
                 FieldsV1 e = Some f ∧ json_Unmarshal (Raw f) = inr mm
                 ∧ mm !! "f:metadata" = Some (JObject metadata)) fields.
Proof. apply getManagedLabels_from_ok_iff. Qed.

(** X3. An entry of the manager whose [f:metadata] object has no [f:labels]
    object does not reset the result: the call returns what it returns
    without that entry, so the labels of an earlier entry of the manager
    stay. *)
Theorem getManagedLabels_entry_without_labels
    (manager : string) (pre post : list ManagedFieldsEntry)
    (e : ManagedFieldsEntry) (f : FieldsV1_t) (mm metadata : gmap string value) :
  FieldsV1 e = Some f →
  json_Unmarshal (Raw f) = inr mm →
  mm !! "f:metadata" = Some (JObject metadata) →
  (∀ l, metadata !! "f:labels" ≠ Some (JObject l)) →
  getManagedLabels (pre ++ e :: post) manager = getManagedLabels (pre ++ post) manager.
Proof.
  intros Hf Hmm Hmd Hl. unfold getManagedLabels.
  rewrite !getManagedLabels_from_app.
  destruct (getManagedLabels_from ∅ pre manager) as [seen|err|reason]; try done.
  simpl. destruct (bool_decide (Manager e ≠ manager)); [done|].
  rewrite Hf, Hmm, Hmd.
  destruct (metadata !! "f:labels") as [[| | | | |l]|] eqn:H; try done.
  by destruct (Hl l).
Qed.

Lemma getManagedLabels_entry_without_labels_witness :
  getManagedLabels [Sample.labels_entry "Terraform" ["a"];
                    Cases.annotations_entry "Terraform"] "Terraform"
  = Ok {[ "f:a" := JObject ∅ ]}.
Proof.
  etrans.
  - apply (getManagedLabels_entry_without_labels "Terraform"
             [Sample.labels_entry "Terraform" ["a"]] []
             (Cases.annotations_entry "Terraform") _ _ _ eq_refl eq_refl eq_refl).
    intros l H. vm_compute in H. discriminate H.
  - reflexivity.
Defined.

(** X4. The first entry of the manager that cannot be read decides the
    outcome, whatever follows it: when its bytes do not decode, the
    decoder's error is returned as it is; when it has no fields at all
    (a nil [FieldsV1]), the call panics. *)
Theorem getManagedLabels_first_failure
    (manager : string) (pre post : list ManagedFieldsEntry)
    (e : ManagedFieldsEntry) (seen : gmap string value) :
  getManagedLabels pre manager = Ok seen →
  Manager e = manager →
  (∀ f err, FieldsV1 e = Some f → json_Unmarshal (Raw f) = inl err →
            getManagedLabels (pre ++ e :: post) manager = Err err)
  ∧ (FieldsV1 e = None →
     ∃ reason, getManagedLabels (pre ++ e :: post) manager = Panic reason).
Proof.
  unfold getManagedLabels. intros Hpre He.
  rewrite getManagedLabels_from_app, Hpre. simpl.
  rewrite bool_decide_false by (by intros ?).
  split.
  - intros f err -> ->. done.
  - intros ->. eauto.
Qed.

Lemma getManagedLabels_first_failure_witness :
  getManagedLabels [Sample.labels_entry "Terraform" ["a"];
                    Cases.garbled_entry "Terraform" "unexpected end of JSON input";
                    Sample.data_entry "Terraform"] "Terraform"
  = Err "unexpected end of JSON input"
  ∧ ∃ reason,
      getManagedLabels [Sample.labels_entry "kubectl" ["c"];
                        Cases.fieldless_entry "Terraform";
                        Sample.labels_entry "Terraform" ["a"]] "Terraform"
      = Panic reason.
Proof.
  split.
  - exact (proj1 (getManagedLabels_first_failure "Terraform"
             [Sample.labels_entry "Terraform" ["a"]] [Sample.data_entry "Terraform"]
             (Cases.garbled_entry "Terraform" "unexpected end of JSON input")
             _ eq_refl eq_refl) _ _ eq_refl eq_refl).
  - exact (proj2 (getManagedLabels_first_failure "Terraform"
             [Sample.labels_entry "kubectl" ["c"]] [Sample.labels_entry "Terraform" ["a"]]
             (Cases.fieldless_entry "Terraform") _ eq_refl eq_refl) eq_refl).
Defined.

(** ** Read, run again and run in vain *)

Section ReadMore.
Context {Server Discovery : Type}.
Variable m : KubeClientsets Server Discovery.
Variable manager : string.

(** The opening looks at the API version, the kind and the metadata of the
    resource data, and at nothing else of the state. *)
Lemma resourceClient_same_target (s s' : State Server) x :
  resourceClient m s = (Ok x, s) →
  api_version (data s') = api_version (data s) →
  kind (data s') = kind (data s) →
  metadata (data s') = metadata (data s) →
  resourceClient m s' = (Ok x, s').
Proof.
  destruct x as [[[r name] namespace] namespaced]. intros H Ha Hk Hm.
  apply resourceClient_ok in H as (_ & gv & mapping & H1 & H2 & H3 & H4 & -> & -> & -> & ->).
  rewrite <- Ha, <- Hk in *. rewrite <- Hm.
  rewrite (resourceClient_resolves m s' gv mapping H1 H2 H3 H4).
  by case_bool_decide.
Qed.

Lemma stored_by_read_A_again res managedLabels d :
  stored_by_read_A res managedLabels
    (Set_labels (stored_by_read_A res managedLabels d) d)
  = stored_by_read_A res managedLabels d.
Proof.
  apply map_eq. intros k. rewrite lookup_stored_by_read_A.
  change (Get_labels (Set_labels (stored_by_read_A res managedLabels d) d))
    with (stored_by_read_A res managedLabels d).
  rewrite (lookup_stored_by_read_A res managedLabels d k).
  destruct (decide (is_Some (managedLabels !! ("f:" +:+ k))
                    ∨ is_Some (Get_labels d !! k))) as [HP|HP].
  - case_decide as H; [done|].
    destruct (GetLabels res !! k) eqn:Hk; [|done].
    destruct H. right. eauto.
  - case_decide as H; [|done].
    destruct H as [H|[? H]]; [|done]. destruct HP. by left.
Qed.

(** X5. Read is idempotent: when a Read has succeeded, a second Read over
    the same server succeeds too and stores the same labels.  For variant
    A this holds although the second Read filters with the labels the
    first one stored in place of the configured ones. *)
Theorem read_idempotent (s : State Server) :
  let A1 := VariantA.resourceKubernetesLabelsRead m manager s in
  let A2 := VariantA.resourceKubernetesLabelsRead m manager A1.2 in
  let B1 := VariantB.resourceKubernetesLabelsRead m s in
  let B2 := VariantB.resourceKubernetesLabelsRead m B1.2 in
  (A1.1 = Ok () →
   A2.1 = Ok () ∧ Get_labels (data A2.2) = Get_labels (data A1.2))
  ∧
  (B1.1 = Ok () →
   B2.1 = Ok () ∧ Get_labels (data B2.2) = Get_labels (data B1.2)).
Proof.
  simpl.
  destruct (resourceClient_cases m s) as [[[[[r name] ns] nsd] H]|[err H]].
  2:{ rewrite (readA_fails m manager s err H), (readB_fails m s err H).
      split; intros ?; simplify_eq/=. }
  rewrite (readA_runs m manager s r name ns nsd H).
  rewrite (readB_runs m s r name ns nsd H). simpl.
  destruct (Get m r name (server s)) as [err|res] eqn:Hget.
  { split; intros ?; simplify_eq/=. }
  split.
  - destruct (getManagedLabels (GetManagedFields res) manager) as [ml| |] eqn:Hml;
      [|intros ?; simplify_eq/=..].
    intros _. simpl.
    erewrite readA_runs; [|by apply (resourceClient_same_target s)].
    simpl. rewrite Hget, Hml. simpl. split; [done|].
    unfold Get_labels; simpl. apply stored_by_read_A_again.
  - intros _. simpl.
    erewrite readB_runs; [|by apply (resourceClient_same_target s)].
    simpl. by rewrite Hget.
Qed.

(** X6. Read only reads: it never changes the server and sends, if
    anything, a single Get; when it does not succeed the resource data are
    exactly as before, and when it succeeds only the stored labels
    differ. *)
Theorem read_writes_labels_only (s : State Server) (out : Result () * State Server) :
  out = VariantA.resourceKubernetesLabelsRead m manager s
  ∨ out = VariantB.resourceKubernetesLabelsRead m s →
  server out.2 = server s
  ∧ (out.1 ≠ Ok () → data out.2 = data s)
  ∧ (out.1 = Ok () → ∃ labels, data out.2 = Set_labels labels (data s))
  ∧ (trace out.2 = trace s
     ∨ ∃ r name, trace out.2 = trace s ++ [GetRequest r name]).
Proof.
  intros Hout.
  destruct (resourceClient_cases m s) as [[[[[r name] ns] nsd] H]|[err H]].
  - destruct Hout as [-> | ->].
    + rewrite (readA_runs m manager s r name ns nsd H). simpl.
      destruct (Get m r name (server s)) as [err|res]; simpl;
        [split_and!; [done|done|done|eauto]|].
      destruct (getManagedLabels _ _); simpl;
        split_and!; try done; eauto.
    + rewrite (readB_runs m s r name ns nsd H). simpl.
      destruct (Get m r name (server s)) as [err|res]; simpl;
        split_and!; try done; eauto.
  - destruct Hout as [-> | ->];
      [rewrite (readA_fails m manager s err H)|rewrite (readB_fails m s err H)];
      simpl; split_and!; try done; eauto.
Qed.

(** X7. The two variants of Read compared: variant A stores a part of what
    variant B stores, and the same map exactly when every label of the
    fetched object is attributed to the manager or configured. *)
Theorem read_A_within_read_B (s : State Server) r name namespace namespaced
    (res : Unstructured) (managedLabels : gmap string value) :
  resourceClient m s = (Ok (r, name, namespace, namespaced), s) →
  Get m r name (server s) = inr res →
  getManagedLabels (GetManagedFields res) manager = Ok managedLabels →
  let storedA := Get_labels (data (VariantA.resourceKubernetesLabelsRead m manager s).2) in
  let storedB := Get_labels (data (VariantB.resourceKubernetesLabelsRead m s).2) in
  storedA ⊆ storedB
  ∧ (storedA = storedB ↔
     ∀ k, is_Some (GetLabels res !! k) →
          is_Some (managedLabels !! ("f:" +:+ k))
          ∨ is_Some (Get_labels (data s) !! k)).
Proof.
  intros Hr Hget Hml.
  destruct (read_results m manager s r name namespace namespaced res managedLabels
              Hr Hget Hml) as [-> ->].
  simpl. unfold Get_labels; simpl. fold (Get_labels (data s)).
  split.
  - apply map_subseteq_spec. intros k v.
    rewrite lookup_stored_by_read_A. by case_decide.
  - split.
    + intros Heq k [v Hk].
      assert (stored_by_read_A res managedLabels (data s) !! k = Some v) as Hs
        by (by rewrite Heq).
      rewrite lookup_stored_by_read_A in Hs. by case_decide.
    + intros Hall. apply map_eq. intros k.
      rewrite lookup_stored_by_read_A. case_decide as Hk; [done|].
      destruct (GetLabels res !! k) eqn:Hl; [|done].
      destruct Hk. apply Hall. eauto.
Qed.
End ReadMore.

Lemma read_idempotent_witness :
  let m := APIServer.clients Sample.discovery in
  let s := Sample.state (Sample.resource_data "id" ∅ {[ "a" := "1" ]})
             (Sample.cluster {[ "a" := "1"; "b" := "2"; "env" := "prod" ]}
                [Sample.labels_entry "Terraform" ["b"]]) in
  let A1 := VariantA.resourceKubernetesLabelsRead m "Terraform" s in
  let A2 := VariantA.resourceKubernetesLabelsRead m "Terraform" A1.2 in
  let B1 := VariantB.resourceKubernetesLabelsRead m s in
  let B2 := VariantB.resourceKubernetesLabelsRead m B1.2 in
  (A2.1 = Ok () ∧ Get_labels (data A2.2) = Get_labels (data A1.2))
  ∧ (B2.1 = Ok () ∧ Get_labels (data B2.2) = Get_labels (data B1.2)).
Proof.
  intros m s.
  destruct (read_idempotent m "Terraform" s) as [HA HB].
  split; [apply HA|apply HB]; by vm_compute.
Defined.

Lemma read_writes_labels_only_witness :
  let m := APIServer.clients Sample.discovery in
  let s := Sample.state (Sample.resource_data "id" {[ "a" := "1" ]} {[ "a" := "1" ]}) ∅ in
  (VariantA.resourceKubernetesLabelsRead m "Terraform" s).1 = Err "my-config not found"
  ∧ data (VariantA.resourceKubernetesLabelsRead m "Terraform" s).2 = data s
  ∧ server (VariantA.resourceKubernetesLabelsRead m "Terraform" s).2 = server s.
Proof.
  intros m s.
  destruct (read_writes_labels_only m "Terraform" s
              (VariantA.resourceKubernetesLabelsRead m "Terraform" s))
    as (Hsrv & Hfail & _ & _); [by left|].
  assert ((VariantA.resourceKubernetesLabelsRead m "Terraform" s).1
          = Err "my-config not found") as Herr by (by vm_compute).
  split_and!; [exact Herr| |exact Hsrv].
  apply Hfail. rewrite Herr. discriminate.
Defined.

Lemma read_A_within_read_B_witness :
  let m := APIServer.clients Sample.discovery in
  let s := Sample.state (Sample.resource_data "id" ∅ {[ "a" := "1" ]})
             (Sample.cluster {[ "a" := "1"; "b" := "2" ]}
                [Sample.labels_entry "Terraform" ["b"]]) in
  Get_labels (data (VariantA.resourceKubernetesLabelsRead m "Terraform" s).2)
  ⊆ Get_labels (data (VariantB.resourceKubernetesLabelsRead m s).2).
Proof.
  intros m s.
  exact (proj1 (read_A_within_read_B m "Terraform" s Sample.my_config "my-config"
                  "default" true _ _ eq_refl eq_refl eq_refl)).
Defined.

(** ** Update, step by step *)

Section UpdateMore.
Context {Server Discovery : Type}.
Variable m : KubeClientsets Server Discovery.
Variable manager : string.

(** X8. Update sends nothing when the patch cannot be encoded, a single
    Patch when the server rejects it, and a Patch followed by the Get of
    Read otherwise; in the first two cases the error is returned as it is,
    and the server and the resource data are exactly as before. *)
Theorem update_rejected (s : State Server) r name namespace namespaced :
  resourceClient m s = (Ok (r, name, namespace, namespaced), s) →
  let bodyA := patch_body_A (data s) name namespace namespaced in
  let optsA := patch_options_A manager (data s) in
  let bodyB := patch_body_B (data s) in
  let optsB := patch_options_B manager in
  let outA := VariantA.resourceKubernetesLabelsUpdate m manager s in
  let outB := VariantB.resourceKubernetesLabelsUpdate m manager s in
  (∀ err, MarshalJSON m bodyA = Some err → outA = (Err err, s))
  ∧ (∀ err, MarshalJSON m bodyB = Some err → outB = (Err err, s))
  ∧ (∀ err, MarshalJSON m bodyA = None →
            Patch m r name ApplyPatchType bodyA optsA (server s) = inl err →
            outA.1 = Err err ∧ server outA.2 = server s ∧ data outA.2 = data s
            ∧ trace outA.2 = trace s ++ [PatchRequest r name ApplyPatchType bodyA optsA])
  ∧ (∀ err, MarshalJSON m bodyB = None →
            Patch m r name JSONPatchType bodyB optsB (server s) = inl err →
            outB.1 = Err err ∧ server outB.2 = server s ∧ data outB.2 = data s
            ∧ trace outB.2 = trace s ++ [PatchRequest r name JSONPatchType bodyB optsB])
  ∧ (∀ srv, MarshalJSON m bodyA = None →
            Patch m r name ApplyPatchType bodyA optsA (server s) = inr srv →
            server outA.2 = srv
            ∧ trace outA.2 = trace s ++ [PatchRequest r name ApplyPatchType bodyA optsA;
                                         GetRequest r name])
  ∧ (∀ srv, MarshalJSON m bodyB = None →
            Patch m r name JSONPatchType bodyB optsB (server s) = inr srv →
            server outB.2 = srv
            ∧ trace outB.2 = trace s ++ [PatchRequest r name JSONPatchType bodyB optsB;
                                         GetRequest r name]).
Proof.
  intros Hr. simpl.
  rewrite (updateA_runs m manager s r name namespace namespaced Hr).
  rewrite (updateB_runs m manager s r name namespace namespaced Hr). simpl.
  split_and!.
  - by intros err ->.
  - by intros err ->.
  - by intros err -> ->.
  - by intros err -> ->.
  - intros srv -> ->. rewrite readA_server, readA_trace. simpl.
    unfold read_requests.
    erewrite (resourceClient_data m s _ _ Hr) by done. simpl.
    by rewrite <- app_assoc.
  - intros srv -> ->. rewrite readB_server, readB_trace. simpl.
    unfold read_requests.
    erewrite (resourceClient_data m s _ _ Hr) by done. simpl.
    by rewrite <- app_assoc.
Qed.

(** X9. Update is not atomic: once the server has accepted the patch, a
    failure of the Read that follows leaves the patch in place while the
    resource data keep the labels they had.  This is so when the Get fails
    (both variants) and, in variant A, when [getManagedLabels] returns an
    error or panics on the fetched object. *)
Theorem update_patched_then_failed (s : State Server) r name namespace namespaced :
  resourceClient m s = (Ok (r, name, namespace, namespaced), s) →
  let bodyA := patch_body_A (data s) name namespace namespaced in
  let optsA := patch_options_A manager (data s) in
  let bodyB := patch_body_B (data s) in
  let optsB := patch_options_B manager in
  let outA := VariantA.resourceKubernetesLabelsUpdate m manager s in
  let outB := VariantB.resourceKubernetesLabelsUpdate m manager s in
  (∀ srv err,
     MarshalJSON m bodyA = None →
     Patch m r name ApplyPatchType bodyA optsA (server s) = inr srv →
     Get m r name srv = inl err →
     outA.1 = Err err ∧ server outA.2 = srv ∧ data outA.2 = data s)
  ∧ (∀ srv err,
       MarshalJSON m bodyB = None →
       Patch m r name JSONPatchType bodyB optsB (server s) = inr srv →
       Get m r name srv = inl err →
       outB.1 = Err err ∧ server outB.2 = srv ∧ data outB.2 = data s)
  ∧ (∀ srv res err,
       MarshalJSON m bodyA = None →
       Patch m r name ApplyPatchType bodyA optsA (server s) = inr srv →
       Get m r name srv = inr res →
       getManagedLabels (GetManagedFields res) manager = Err err →
       outA.1 = Err err ∧ server outA.2 = srv ∧ data outA.2 = data s)
  ∧ (∀ srv res reason,
       MarshalJSON m bodyA = None →
       Patch m r name ApplyPatchType bodyA optsA (server s) = inr srv →
       Get m r name srv = inr res →
       getManagedLabels (GetManagedFields res) manager = Panic reason →
       outA.1 = Panic reason ∧ server outA.2 = srv ∧ data outA.2 = data s).
Proof.
  intros Hr. simpl.
  rewrite (updateA_runs m manager s r name namespace namespaced Hr).
  rewrite (updateB_runs m manager s r name namespace namespaced Hr). simpl.
  split_and!.
  - intros srv err -> -> Hget.
    erewrite readA_runs; [|by apply (resourceClient_data m s)].
    simpl. by rewrite Hget.
  - intros srv err -> -> Hget.
    erewrite readB_runs; [|by apply (resourceClient_data m s)].
    simpl. by rewrite Hget.
  - intros srv res err -> -> Hget Hml.
    erewrite readA_runs; [|by apply (resourceClient_data m s)].
    simpl. by rewrite Hget, Hml.
  - intros srv res reason -> -> Hget Hml.
    erewrite readA_runs; [|by apply (resourceClient_data m s)].
    simpl. by rewrite Hget, Hml.
Qed.
End UpdateMore.

Lemma update_rejected_witness :
  let s := Sample.state (Sample.resource_data "id" {[ "a" := "1" ]} {[ "a" := "2" ]}) ∅ in
  VariantB.resourceKubernetesLabelsUpdate
    (Cases.clients_marshal_failing Sample.discovery "json: unsupported value")
    "Terraform" s
  = (Err "json: unsupported value", s)
  ∧ (VariantA.resourceKubernetesLabelsUpdate
       (APIServer.clients Sample.discovery) "Terraform" s).1
    = Err "my-config not found".
Proof.
  intros s. split.
  - destruct (update_rejected
                (Cases.clients_marshal_failing Sample.discovery "json: unsupported value")
                "Terraform" s Sample.my_config "my-config" "default" true eq_refl)
      as (_ & HB & _).
    by apply HB.
  - destruct (update_rejected (APIServer.clients Sample.discovery)
                "Terraform" s Sample.my_config "my-config" "default" true eq_refl)
      as (_ & _ & HA & _).
    by apply (HA "my-config not found").
Defined.

Lemma update_patched_then_failed_witness :
  let s := Sample.state (Sample.resource_data "id" {[ "a" := "1" ]} {[ "a" := "2" ]})
             (Sample.cluster {[ "a" := "1" ]} [Sample.data_entry "Terraform"]) in
  let outB := VariantB.resourceKubernetesLabelsUpdate
                (Cases.clients_get_failing Sample.discovery "connection reset")
                "Terraform" s in
  let outA := VariantA.resourceKubernetesLabelsUpdate
                (Cases.clients_patch_ignoring Sample.discovery) "Terraform" s in
  (outB.1 = Err "connection reset" ∧ data outB.2 = data s
   ∧ GetLabels <$> server outB.2 !! APIServer.object_key Sample.my_config "my-config"
     = Some {[ "a" := "2" ]})
  ∧ (∃ reason, outA.1 = Panic reason) ∧ data outA.2 = data s.
Proof.
  intros s. split.
  - pose (m := Cases.clients_get_failing Sample.discovery "connection reset").
    assert (match Patch m Sample.my_config "my-config" JSONPatchType
                    (patch_body_B (data s)) (patch_options_B "Terraform") (server s)
            with
            | inr srv => GetLabels <$> srv !! APIServer.object_key Sample.my_config "my-config"
            | inl _ => None
            end = Some {[ "a" := "2" ]}) as Hlabels by (vm_compute; reflexivity).
    destruct (Patch m Sample.my_config "my-config" JSONPatchType
                (patch_body_B (data s)) (patch_options_B "Terraform") (server s))
      as [err|srv] eqn:Hpatch; [discriminate Hlabels|].
    destruct (proj1 (proj2 (update_patched_then_failed m "Terraform" s
                Sample.my_config "my-config" "default" true eq_refl))
                srv "connection reset" eq_refl Hpatch eq_refl) as (H1 & H2 & H3).
    split_and!; [exact H1|exact H3|]. unfold m in H2. rewrite H2. exact Hlabels.
  - pose (m := Cases.clients_patch_ignoring Sample.discovery).
    pose (res := {| GetLabels := {[ "a" := "1" ]};
                    GetManagedFields := [Sample.data_entry "Terraform"] |}).
    assert (Get m Sample.my_config "my-config" (server s) = inr res) as Hget
      by (by vm_compute).
    assert (getManagedLabels (GetManagedFields res) "Terraform"
            = Panic "interface conversion: interface {} is not map[string]interface {}")
      as Hml by (by vm_compute).
    destruct (proj2 (proj2 (proj2 (update_patched_then_failed m "Terraform" s
                Sample.my_config "my-config" "default" true eq_refl)))
                (server s) res _ eq_refl eq_refl Hget Hml) as (H1 & _ & H3).
    split; [eauto|exact H3].
Defined.

(** ** Create, and what the requests carry *)

Section CreateMore.
Context {Server Discovery : Type}.
Variable m : KubeClientsets Server Discovery.
Variable manager : string.

(** X10. Create sets the ID to what [buildIdWithVersionKind] makes of the
    metadata, the API version and the kind, and the ID stays that whether
    the update it runs succeeds or not.  Its patch is built from the
    configured labels, unless the built ID is the empty string: then
    Create sends the patch of a deletion, built from the empty label
    map. *)
Theorem create_sets_id (build : ObjectMeta → string → string → string)
    (s : State Server) :
  let id := build (metadata (data s)) (api_version (data s)) (kind (data s)) in
  Id (data (VariantA.resourceKubernetesLabelsCreate m manager build s).2) = id
  ∧ Id (data (VariantB.resourceKubernetesLabelsCreate m manager build s).2) = id
  ∧ Forall (λ req, match req with
                   | PatchRequest _ _ _ body _ =>
                       ∃ obj, body = ApplyBody obj ∧
                              po_labels obj = if bool_decide (id = "")
                                              then ∅ else Get_labels (data s)
                   | GetRequest _ _ => True
                   end)
      (requests_of (VariantA.resourceKubernetesLabelsCreate m manager build) s)
  ∧ Forall (λ req, match req with
                   | PatchRequest _ _ _ body _ =>
                       body = JSONPatchBody
                         (diffStringMap "/metadata/labels/" (labels_state (data s))
                            (if bool_decide (id = "")
                             then ∅ else labels_planned (data s)))
                   | GetRequest _ _ => True
                   end)
      (requests_of (VariantB.resourceKubernetesLabelsCreate m manager build) s).
Proof.
  simpl. split_and!.
  - by rewrite createA_runs, updateA_Id.
  - by rewrite createB_runs, updateB_Id.
  - pose proof (updateA_patches m manager
                  (with_data (λ d, SetId (build (metadata d) (api_version d) (kind d)) d) s))
      as H.
    unfold requests_of in *. simpl in H.
    eapply Forall_impl; [exact H|]. intros [] Hq; [done|].
    destruct Hq as (_ & _ & obj & Hbody & Hl). by exists obj.
  - pose proof (updateB_patches m manager
                  (with_data (λ d, SetId (build (metadata d) (api_version d) (kind d)) d) s))
      as H.
    unfold requests_of in *. simpl in H.
    eapply Forall_impl; [exact H|]. intros [] Hq; [done|].
    by destruct Hq as (_ & _ & Hbody).
Qed.

(** X11. The apply patch of variant A is consistent with the request that
    carries it: the object in the body has the name the request is for,
    which is the configured name, the configured API version and kind, the
    namespace of the resource client the request goes through (none for a
    cluster-scoped kind), and the options carry the manager and the
    configured force flag. *)
Theorem apply_patch_matches_request (s : State Server) :
  Forall (λ req, match req with
                 | PatchRequest r name pt body opts =>
                     ∃ obj, body = ApplyBody obj
                            ∧ po_name obj = name
                            ∧ name = Name (metadata (data s))
                            ∧ po_apiVersion obj = api_version (data s)
                            ∧ po_kind obj = kind (data s)
                            ∧ po_namespace obj = ri_namespace r
                            ∧ opts = {| FieldManager := manager;
                                        Force := Some (force (data s)) |}
                 | GetRequest _ _ => True
                 end)
    (requests_of (VariantA.resourceKubernetesLabelsUpdate m manager) s).
Proof.
  rewrite requests_of_updateA. unfold updateA_requests.
  destruct (resourceClient_cases m s) as [[[[[r name] ns] nsd] H]|[err H]];
    rewrite H; [|done].
  simpl. destruct (MarshalJSON m _); [done|].
  constructor; [|by destruct (Patch m _ _ _ _ _ _); repeat constructor].
  apply resourceClient_ok in H as (_ & gv & mapping & _ & _ & _ & _ & -> & -> & -> & ->).
  eexists. split; [reflexivity|]. simpl.
  split_and!; try done. by case_bool_decide.
Qed.

(** Every request of Read and Update is for the name and goes to the
    resource client the opening picked. *)
Lemma requests_go_to_named_resource (s : State Server) op req :
  op ∈ [VariantA.resourceKubernetesLabelsRead m manager;
        VariantA.resourceKubernetesLabelsUpdate m manager;
        VariantB.resourceKubernetesLabelsRead m;
        VariantB.resourceKubernetesLabelsUpdate m manager] →
  req ∈ requests_of op s →
  ∃ namespace namespaced,
    resourceClient m s
    = (Ok (request_target req, request_name req, namespace, namespaced), s).
Proof.
  intros Hop Hreq.
  assert (req ∈ read_requests m s ∨ req ∈ updateA_requests m manager s
          ∨ req ∈ updateB_requests m manager s) as Hcases.
  { repeat (apply elem_of_cons in Hop as [->|Hop]);
      [rewrite requests_of_readA in Hreq|rewrite requests_of_updateA in Hreq
      |rewrite requests_of_readB in Hreq|rewrite requests_of_updateB in Hreq|];
      [tauto..|by apply elem_of_nil in Hop]. }
  clear Hop Hreq.
  unfold read_requests, updateA_requests, updateB_requests in Hcases.
  destruct (resourceClient_cases m s) as [[[[[r name] ns] nsd] H]|[err H]];
    rewrite H in Hcases; simpl in Hcases.
  - exists ns, nsd.
    assert (request_target req = r ∧ request_name req = name) as [-> ->]; [|done].
    destruct Hcases as [Hc|[Hc|Hc]].
    + by apply list_elem_of_singleton in Hc as ->.
    + destruct (MarshalJSON m _); [by apply elem_of_nil in Hc|].
      apply elem_of_cons in Hc as [->|Hc]; [done|].
      destruct (Patch m _ _ _ _ _ _); [by apply elem_of_nil in Hc|].
      by apply list_elem_of_singleton in Hc as ->.
    + destruct (MarshalJSON m _); [by apply elem_of_nil in Hc|].
      apply elem_of_cons in Hc as [->|Hc]; [done|].
      destruct (Patch m _ _ _ _ _ _); [by apply elem_of_nil in Hc|].
      by apply list_elem_of_singleton in Hc as ->.
  - destruct Hcases as [Hc|[Hc|Hc]]; by apply elem_of_nil in Hc.
Qed.

(** X12. Every request that Read or Update issues is for the configured
    name, and for a namespace-scoped kind with a namespace given it goes to
    that namespace. *)
Theorem requests_use_name_and_namespace (s : State Server) gv mapping op req :
  ParseGroupVersion m (api_version (data s)) = inr gv →
  RESTMapping m (GetAPIGroupResources m).1
    (WithKind_GroupKind gv (kind (data s))) (gv_Version gv) = inr mapping →
  op ∈ [VariantA.resourceKubernetesLabelsRead m manager;
        VariantA.resourceKubernetesLabelsUpdate m manager;
        VariantB.resourceKubernetesLabelsRead m;
        VariantB.resourceKubernetesLabelsUpdate m manager] →
  req ∈ requests_of op s →
  request_name req = Name (metadata (data s))
  ∧ (Scope mapping = RESTScopeNameNamespace →
     Namespace (metadata (data s)) ≠ "" →
     request_target req =
       {| ri_resource := Resource mapping;
          ri_namespace := Some (Namespace (metadata (data s))) |}).
Proof.
  intros Hgv Hmap Hop Hreq.
  destruct (requests_go_to_named_resource s op req Hop Hreq) as (ns & nsd & H).
  apply resourceClient_ok in H
    as (_ & gv' & mapping' & _ & _ & Hgv' & Hmap' & Hname & Hnsd & Hns & Hr).
  rewrite Hgv in Hgv'. simplify_eq. rewrite Hmap in Hmap'. simplify_eq.
  split; [done|].
  intros Hscope Hgiven. rewrite Hr. rewrite Hscope.
  rewrite bool_decide_true by done. by rewrite bool_decide_false.
Qed.
End CreateMore.

Lemma requests_use_name_and_namespace_witness :
  let m := APIServer.clients Sample.discovery in
  let s := Sample.state (Cases.resource_data_for "v1" "ConfigMap" "kube-system"
                           ∅ {[ "a" := "1" ]}) ∅ in
  requests_of (VariantB.resourceKubernetesLabelsUpdate m "Terraform") s
  = [PatchRequest
       (in_Namespace "kube-system" (conn_Resource (Resource Sample.configmaps)))
       "my-config" JSONPatchType
       (JSONPatchBody [AddOperation "/metadata/labels/a" "1"])
       {| FieldManager := "Terraform"; Force := None |}]
  ∧ ∀ req, req ∈ requests_of (VariantB.resourceKubernetesLabelsUpdate m "Terraform") s →
           request_name req = "my-config"
           ∧ request_target req
             = in_Namespace "kube-system" (conn_Resource (Resource Sample.configmaps)).
Proof.
  intros m s. split; [by vm_compute|]. intros req Hreq.
  destruct (requests_use_name_and_namespace m "Terraform" s _ Sample.configmaps _ req
              eq_refl eq_refl
              (list_elem_of_further _ _ _
                 (list_elem_of_further _ _ _
                    (list_elem_of_further _ _ _ (list_elem_of_here _ _))))
              Hreq) as [Hname Hns].
  split; [exact Hname|]. apply Hns; [reflexivity|discriminate].
Defined.

Section OpeningErrors.
Context {Server Discovery : Type}.
Variable m : KubeClientsets Server Discovery.
Variable manager : string.

(** X13. An error in obtaining the dynamic client, in obtaining the
    discovery client, in parsing the API version or in resolving the REST
    mapping, in that order of precedence, ends every lifecycle function at
    once: the error is returned as it is, no request is sent, the server
    and the stored labels are untouched.  Create and Delete have set the ID
    by then and leave it set. *)
Theorem opening_errors_end_operation
    (build : ObjectMeta → string → string → string)
    (s : State Server) (err : Error) :
  DynamicClient m = Some err
  ∨ (DynamicClient m = None ∧ DiscoveryClient m = Some err)
  ∨ (DynamicClient m = None ∧ DiscoveryClient m = None
     ∧ ParseGroupVersion m (api_version (data s)) = inl err)
  ∨ (DynamicClient m = None ∧ DiscoveryClient m = None
     ∧ ∃ gv, ParseGroupVersion m (api_version (data s)) = inr gv
             ∧ RESTMapping m (GetAPIGroupResources m).1
                 (WithKind_GroupKind gv (kind (data s))) (gv_Version gv) = inl err) →
  VariantA.resourceKubernetesLabelsRead m manager s = (Err err, s)
  ∧ VariantB.resourceKubernetesLabelsRead m s = (Err err, s)
  ∧ VariantA.resourceKubernetesLabelsUpdate m manager s = (Err err, s)
  ∧ VariantB.resourceKubernetesLabelsUpdate m manager s = (Err err, s)
  ∧ VariantA.resourceKubernetesLabelsDelete m manager s
    = (Err err, with_data (SetId "") s)
  ∧ VariantB.resourceKubernetesLabelsDelete m manager s
    = (Err err, with_data (SetId "") s)
  ∧ VariantA.resourceKubernetesLabelsCreate m manager build s
    = (Err err, with_data (SetId (build (metadata (data s)) (api_version (data s))
                                        (kind (data s)))) s)
  ∧ VariantB.resourceKubernetesLabelsCreate m manager build s
    = (Err err, with_data (SetId (build (metadata (data s)) (api_version (data s))
                                        (kind (data s)))) s).
Proof.
  intros Hcase.
  assert (∀ s' op,
            api_version (data s') = api_version (data s) →
            kind (data s') = kind (data s) →
            op ∈ [VariantA.resourceKubernetesLabelsRead m manager;
                  VariantA.resourceKubernetesLabelsUpdate m manager;
                  VariantB.resourceKubernetesLabelsRead m;
                  VariantB.resourceKubernetesLabelsUpdate m manager] →
            op s' = (Err err, s')) as Hall.
  { intros s' op Ha Hk Hop.
    apply (checked_errors_propagate m manager s' op err Hop).
    by rewrite Ha, Hk. }
  split_and!.
  - apply Hall; [done..|]. apply list_elem_of_here.
  - apply Hall; [done..|].
    apply list_elem_of_further, list_elem_of_further, list_elem_of_here.
  - apply Hall; [done..|]. apply list_elem_of_further, list_elem_of_here.
  - apply Hall; [done..|].
    apply list_elem_of_further, list_elem_of_further, list_elem_of_further,
      list_elem_of_here.
  - rewrite deleteA_runs. apply Hall; [done..|].
    apply list_elem_of_further, list_elem_of_here.
  - rewrite deleteB_runs. apply Hall; [done..|].
    apply list_elem_of_further, list_elem_of_further, list_elem_of_further,
      list_elem_of_here.
  - rewrite createA_runs. apply Hall; [done..|].
    apply list_elem_of_further, list_elem_of_here.
  - rewrite createB_runs. apply Hall; [done..|].
    apply list_elem_of_further, list_elem_of_further, list_elem_of_further,
      list_elem_of_here.
Qed.
End OpeningErrors.

Lemma opening_errors_end_operation_witness :
  let m := APIServer.clients Sample.discovery in
  let s := Sample.state (Cases.resource_data_for "apps/v1/beta1" "Deployment" ""
                           ∅ {[ "a" := "1" ]})
             (Sample.cluster ∅ []) in
  let t := Sample.state (Cases.resource_data_for "v1" "Secret" "" ∅ {[ "a" := "1" ]})
             (Sample.cluster ∅ []) in
  VariantA.resourceKubernetesLabelsUpdate m "Terraform" s
  = (Err "unexpected GroupVersion string: apps/v1/beta1", s)
  ∧ VariantB.resourceKubernetesLabelsDelete m "Terraform" t
    = (Err "no matches for kind Secret in version v1", with_data (SetId "") t).
Proof.
  intros m s t. split.
  - refine (proj1 (proj2 (proj2 (opening_errors_end_operation m "Terraform"
                                   Sample.build_id s _ _)))).
    right; right; left. by split_and!.
  - refine (proj1 (proj2 (proj2 (proj2 (proj2 (proj2
              (opening_errors_end_operation m "Terraform" Sample.build_id t _ _))))))).
    right; right; right. split_and!; [done..|].
    eexists. split; reflexivity.
Defined.

(** ** What no operation writes *)

Section Frame.
Context {Server Discovery : Type}.
Variable m : KubeClientsets Server Discovery.
Variable manager : string.

Lemma same_configuration_refl d : same_configuration d d.
Proof. by repeat split. Qed.

Lemma same_configuration_trans d1 d2 d3 :
  same_configuration d1 d2 → same_configuration d2 d3 → same_configuration d1 d3.
Proof.
  unfold same_configuration. intros (?&?&?&?&?&?) (?&?&?&?&?&?).
  split_and!; congruence.
Qed.

Lemma same_configuration_SetId id d : same_configuration d (SetId id d).
Proof. by repeat split. Qed.

Lemma readA_configuration (s : State Server) :
  same_configuration (data s)
    (data (VariantA.resourceKubernetesLabelsRead m manager s).2).
Proof.
  destruct (resourceClient_cases m s) as [[[[[r name] ns] nsd] H]|[err H]].
  - rewrite (readA_runs m manager s r name ns nsd H). simpl.
    destruct (Get m r name (server s)); [apply same_configuration_refl|].
    destruct (getManagedLabels _ _); by repeat split.
  - rewrite (readA_fails m manager s err H). apply same_configuration_refl.
Qed.

Lemma readB_configuration (s : State Server) :
  same_configuration (data s) (data (VariantB.resourceKubernetesLabelsRead m s).2).
Proof.
  destruct (resourceClient_cases m s) as [[[[[r name] ns] nsd] H]|[err H]].
  - rewrite (readB_runs m s r name ns nsd H). simpl.
    destruct (Get m r name (server s)); by repeat split.
  - rewrite (readB_fails m s err H). apply same_configuration_refl.
Qed.

Lemma updateA_configuration (s : State Server) :
  same_configuration (data s)
    (data (VariantA.resourceKubernetesLabelsUpdate m manager s).2).
Proof.
  destruct (resourceClient_cases m s) as [[[[[r name] ns] nsd] H]|[err H]].
  - rewrite (updateA_runs m manager s r name ns nsd H). simpl.
    destruct (MarshalJSON m _); [apply same_configuration_refl|].
    destruct (Patch m _ _ _ _ _ _) as [err|srv]; [apply same_configuration_refl|].
    apply (readA_configuration {| data := data s; server := srv; trace := _ |}).
  - rewrite (updateA_fails m manager s err H). apply same_configuration_refl.
Qed.

Lemma updateB_configuration (s : State Server) :
  same_configuration (data s)
    (data (VariantB.resourceKubernetesLabelsUpdate m manager s).2).
Proof.
  destruct (resourceClient_cases m s) as [[[[[r name] ns] nsd] H]|[err H]].
  - rewrite (updateB_runs m manager s r name ns nsd H). simpl.
    destruct (MarshalJSON m _); [apply same_configuration_refl|].
    destruct (Patch m _ _ _ _ _ _) as [err|srv]; [apply same_configuration_refl|].
    apply (readB_configuration {| data := data s; server := srv; trace := _ |}).
  - rewrite (updateB_fails m manager s err H). apply same_configuration_refl.
Qed.

(** X14. Whatever its outcome, no lifecycle function changes the API
    version, the kind, the metadata, the prior state of the labels, the
    planned labels or the force flag of the resource data: all an
    operation writes there is the ID (Create and Delete) and the labels it
    has read back.  Read and Update keep the ID as well. *)
Theorem operations_keep_configuration
    (build : ObjectMeta → string → string → string) (s : State Server) :
  Forall (λ op : M Server (), same_configuration (data s) (data (op s).2))
    [VariantA.resourceKubernetesLabelsCreate m manager build;
     VariantA.resourceKubernetesLabelsRead m manager;
     VariantA.resourceKubernetesLabelsUpdate m manager;
     VariantA.resourceKubernetesLabelsDelete m manager;
     VariantB.resourceKubernetesLabelsCreate m manager build;
     VariantB.resourceKubernetesLabelsRead m;
     VariantB.resourceKubernetesLabelsUpdate m manager;
     VariantB.resourceKubernetesLabelsDelete m manager]
  ∧ Forall (λ op : M Server (), Id (data (op s).2) = Id (data s))
      [VariantA.resourceKubernetesLabelsRead m manager;
       VariantA.resourceKubernetesLabelsUpdate m manager;
       VariantB.resourceKubernetesLabelsRead m;
       VariantB.resourceKubernetesLabelsUpdate m manager].
Proof.
  split.
  - repeat apply Forall_cons_2; [..|apply Forall_nil_2].
    + rewrite createA_runs. eapply same_configuration_trans;
        [|apply updateA_configuration]. apply same_configuration_SetId.
    + apply readA_configuration.
    + apply updateA_configuration.
    + rewrite deleteA_runs. eapply same_configuration_trans;
        [|apply updateA_configuration]. apply same_configuration_SetId.
    + rewrite createB_runs. eapply same_configuration_trans;
        [|apply updateB_configuration]. apply same_configuration_SetId.
    + apply readB_configuration.
    + apply updateB_configuration.
    + rewrite deleteB_runs. eapply same_configuration_trans;
        [|apply updateB_configuration]. apply same_configuration_SetId.
  - repeat apply Forall_cons_2; [..|apply Forall_nil_2].
    + apply readA_Id.
    + apply updateA_Id.
    + apply readB_Id.
    + apply updateB_Id.
Qed.
End Frame.
